(** * ssh-mob: the agent of [ssh.go], embedded and verified

    The development follows [ssh.go] function by function.  Go's [int] (on
    a 64-bit platform) and [time.Duration] are 64-bit signed integers: they
    are modelled as [Z] with the wrap-around of every arithmetic operation
    written out.  The agent is
    a record, [nil] is [None], and the methods of [*Agent] are computations in
    a small state monad whose state holds the agent, the clock and the trace
    of everything the agent did to the outside world (library calls, timed
    waits, log lines).  The outside world itself (dial and session results,
    the cancellation instant, the outcome of a tied [select]) is an
    environment [Env] every definition is parameterised by. *)

From Stdlib Require Import ZArith Lia.
From stdpp Require Import base list strings.

Local Open Scope Z_scope.

(** ** Go integers *)

Module GoInt.

Definition MinInt64 : Z := - 2 ^ 63.
Definition MaxInt64 : Z := 2 ^ 63 - 1.

(** The value an [int64] holds after an operation whose exact result is [z]. *)
Definition wrap64 (z : Z) : Z := (z + 2 ^ 63) mod 2 ^ 64 - 2 ^ 63.

Definition inInt64 (z : Z) : Prop := MinInt64 <= z <= MaxInt64.

Definition add64 (x y : Z) : Z := wrap64 (x + y).
Definition sub64 (x y : Z) : Z := wrap64 (x - y).
Definition mul64 (x y : Z) : Z := wrap64 (x * y).

End GoInt.
Export GoInt.

(** ** Run-time panics and fallible pure code *)

Inductive PanicKind : Type :=
| IndexOutOfRange   (* s[i] with i outside 0 <= i < len(s) *)
| DivideByZero      (* integer division by zero *)
| NegativeShift     (* x << n with n < 0 *)
| NilDereference.   (* method call through a nil pointer *)

(** A Go expression either has a value or panics. *)
Inductive Eval (A : Type) : Type :=
| Value (a : A)
| Panics (p : PanicKind).
Arguments Value {A} a.
Arguments Panics {A} p.

(** [x << n] on [int64]: the count must not be negative; bits shifted past
    bit 63 are lost. *)
Definition shl64 (x n : Z) : Eval Z :=
  if n <? 0 then Panics NegativeShift else Value (wrap64 (Z.shiftl x n)).

(** [x / y] on [int]: truncated towards zero, panics on a zero divisor. *)
Definition div64 (x y : Z) : Eval Z :=
  if y =? 0 then Panics DivideByZero else Value (wrap64 (Z.quot x y)).

(** [s[i]] on a slice. *)
Definition index {A} (s : list A) (i : Z) : Eval A :=
  if i <? 0 then Panics IndexOutOfRange
  else match s !! Z.to_nat i with
       | Some x => Value x
       | None => Panics IndexOutOfRange
       end.

Definition len {A} (s : list A) : Z := Z.of_nat (length s).

(** ** Time: durations are [int64] nanoseconds, instants are abstract *)

Definition Duration := Z.
Definition Time := Z.
Definition Second : Duration := 1000000000.

(** ** Errors *)

Inductive GoErr : Type :=
| ContextCanceled            (* ctx.Err() once ctx.Done() is closed *)
| ConnectionIsNil            (* fmt.Errorf("Connection is nil") *)
| LibraryError (code : nat). (* an error returned by the ssh library *)

(** A Go [error] value: [None] is [nil]. *)
Definition error := option GoErr.

(** ** The agent *)

(** Handles of the ssh library. *)
Definition Client := nat.
Definition Session := nat.

Record Agent : Type := mkAgent {
  Host : string;
  Port : Z;
  Username : string;
  Password : string;
  PrivateKeyPath : string;
  UseTTY : bool;
  Connection : option Client;
  ConnectionDelay : Z;
  ConnectionTTL : Z;
  ConnectionStart : Time;
  CommandRate : Z;
  CommandScript : list string;
  MaxRetries : Z
}.

Definition setConnection (c : option Client) (a : Agent) : Agent :=
  mkAgent (Host a) (Port a) (Username a) (Password a) (PrivateKeyPath a)
          (UseTTY a) c (ConnectionDelay a) (ConnectionTTL a)
          (ConnectionStart a) (CommandRate a) (CommandScript a) (MaxRetries a).

Definition setConnectionStart (t : Time) (a : Agent) : Agent :=
  mkAgent (Host a) (Port a) (Username a) (Password a) (PrivateKeyPath a)
          (UseTTY a) (Connection a) (ConnectionDelay a) (ConnectionTTL a)
          t (CommandRate a) (CommandScript a) (MaxRetries a).

(** ** The pure methods *)

(** [getBackoffDuration]: [time.Duration(1<<attempt) * time.Second], capped
    at [16 * time.Second].  The constant [1] takes the type [time.Duration]. *)
Definition getBackoffDuration (a : Agent) (attempt : Z) : Eval Duration :=
  match shl64 1 attempt with
  | Panics p => Panics p
  | Value sh =>
      let backoff := mul64 sh Second in
      if 16 * Second <? backoff then Value (16 * Second) else Value backoff
  end.

Definition defaultCommand : string := "echo 'Hello, world!'".

(** [getCommand]. *)
Definition getCommand (a : Agent) (idx : Z) : Eval string :=
  if 0 <? len (CommandScript a) then
    if len (CommandScript a) <=? idx then Value ""%string
    else index (CommandScript a) idx
  else Value defaultCommand.

(** [getSleepDuration]: [time.Duration(60/a.CommandRate) * time.Second]. *)
Definition getSleepDuration (a : Agent) : Eval Duration :=
  match div64 60 (CommandRate a) with
  | Panics p => Panics p
  | Value q => Value (mul64 q Second)
  end.

(** ** The outside world *)

(** What one operation of the ssh library answers: whether it failed, how
    long it took, and the bytes it produced (the output of a command). *)
Record Reply : Type := mkReply {
  failure : option nat;
  elapsed : nat;
  payload : string
}.

(** The environment of one run.  [cancelAt] is the instant at which the
    context is cancelled ([None]: never).  [reply k] answers the [k]-th
    interaction of the agent.  [timerFirst k] says which case a [select]
    takes when its timer and [ctx.Done()] become ready at the same instant
    (Go chooses among ready cases pseudo-randomly). *)
Record Env : Type := mkEnv {
  cancelAt : option Time;
  reply : nat -> Reply;
  timerFirst : nat -> bool
}.

Inductive TermMode : Type := ECHO | ECHOCTL | TTY_OP_ISPEED | TTY_OP_OSPEED.

(** The calls into [golang.org/x/crypto/ssh]. *)
Inductive Op : Type :=
| Dial (host : string) (port : Z) (user password : string)
| NewSession (c : Client)
| RequestPty (s : Session) (term : string) (h w : Z) (modes : list (TermMode * Z))
| StdinPipe (s : Session)
| StdoutPipe (s : Session)
| StderrPipe (s : Session)
| Shell (s : Session)
| Output (s : Session) (cmd : string)
| StdinWrite (s : Session) (data : string)
| SessionClose (s : Session)
| ClientClose (c : Client).

Inductive Level : Type := LvlDebug | LvlInfo | LvlWarn | LvlError.

(** One constructor per log statement of [ssh.go]. *)
Inductive LogMsg : Type :=
| MsgConnected (now : Time) (host : string) (port : Z)
| MsgRetrying (attempt : Z) (backoff : Duration) (err : GoErr)
| MsgConnectFailed (attempts : Z) (err : error)
| MsgWaitingForShell
| MsgContextCancelled
| MsgTTLReached
| MsgRunning (cmd : string)
| MsgWritingStdin
| MsgWriteFailed (err : GoErr)
| MsgSleeping (d : Duration)
| MsgRunFailed (err : GoErr)
| MsgOutput (out : string)
| MsgClosing.

(** The four places where the agent blocks on a timer raced against the
    context. *)
Inductive WaitKind : Type := PreConnect | Backoff | ShellWarmup | Cadence.

Inductive Woken : Type := TimerFired | CtxDone.

Inductive Stream : Type := Stdout | Stderr.

Inductive Event : Type :=
| Call (op : Op) (failed : option nat)
| Wait (k : WaitKind) (d : Duration) (w : Woken)
| Log (l : Level) (m : LogMsg)
| GoDrain (s : Session) (from : Stream).

(** ** State and the monad of agent methods *)

Record State : Type := mkState {
  self : Agent;                   (* the receiver [a *Agent] *)
  clock : Time;                   (* time.Now() *)
  tick : nat;                     (* interactions so far *)
  trace : list (Time * Event)     (* what happened, oldest first *)
}.

Inductive Outcome (A : Type) : Type :=
| Done (a : A) (s : State)
| Panicked (p : PanicKind) (s : State)
| OutOfFuel (s : State).
Arguments Done {A} a s.
Arguments Panicked {A} p s.
Arguments OutOfFuel {A} s.

Definition stateOf {A} (o : Outcome A) : State :=
  match o with Done _ s | Panicked _ s | OutOfFuel s => s end.

Definition M (A : Type) : Type := State -> Outcome A.

Definition ret {A} (a : A) : M A := fun s => Done a s.

Definition bind {A B} (m : M A) (k : A -> M B) : M B :=
  fun s => match m s with
           | Done a s' => k a s'
           | Panicked p s' => Panicked p s'
           | OutOfFuel s' => OutOfFuel s'
           end.

Notation "'let!' x ':=' m 'in' k" := (bind m (fun x => k))
  (at level 10, x name, m at level 100, k at level 200).

Definition outOfFuel {A} : M A := fun s => OutOfFuel s.

Definition eval {A} (e : Eval A) : M A :=
  fun s => match e with Value a => Done a s | Panics p => Panicked p s end.

Definition getSelf : M Agent := fun s => Done (self s) s.

Definition modifySelf (f : Agent -> Agent) : M unit :=
  fun s => Done tt (mkState (f (self s)) (clock s) (tick s) (trace s)).

Definition timeNow : M Time := fun s => Done (clock s) s.

Definition emit (e : Event) (s : State) : State :=
  mkState (self s) (clock s) (tick s) (trace s ++ [(clock s, e)]).

Definition log (l : Level) (m : LogMsg) : M unit :=
  fun s => Done tt (emit (Log l m) s).

Definition goDrain (sess : Session) (from : Stream) : M unit :=
  fun s => Done tt (emit (GoDrain sess from) s).

(** [defer f] around a function body: [f] runs when the body returns and
    also when it panics. *)
Definition defer {A} (f : M unit) (body : M A) : M A :=
  fun s => match body s with
           | Done a s' => match f s' with
                          | Done _ s'' => Done a s''
                          | Panicked p s'' => Panicked p s''
                          | OutOfFuel s'' => OutOfFuel s''
                          end
           | Panicked p s' => match f s' with
                              | Done _ s'' => Panicked p s''
                              | Panicked q s'' => Panicked q s''
                              | OutOfFuel s'' => OutOfFuel s''
                              end
           | OutOfFuel s' => OutOfFuel s'
           end.

Section World.

Variable env : Env.

(** A call into the library: it is recorded with the instant it starts at,
    takes the time the environment says and consumes one answer.  Time
    passes in calls and in waits only, so a call carries the instant of the
    statement before it, where the program takes some time to get from one
    to the other.  The statements below do not rest on that: of a check
    ([ctx.Done()], the TTL) they say what follows it in the order of
    events, and they bound the instants of calls from below. *)
Definition call (op : Op) : M Reply :=
  fun s =>
    let r := reply env (tick s) in
    Done r (mkState (self s) (clock s + Z.of_nat (elapsed r)) (S (tick s))
                    (trace s ++ [(clock s, Call op (failure r))])).

(** Is [ctx.Done()] closed at instant [t]? *)
Definition signaledAt (t : Time) : bool :=
  match cancelAt env with
  | Some c => c <=? t
  | None => false
  end.

(** [select { case <-ctx.Done(): ...; default: }] *)
Definition ctxIsDone : M bool := fun s => Done (signaledAt (clock s)) s.

(** [select { case <-time.After(d): ...; case <-ctx.Done(): ... }].
    The timer is ready at [clock + max 0 d]; [ctx.Done()] is ready from
    the later of now and the cancellation instant.  The case that is ready
    first is taken; the environment decides a tie. *)
Definition raceTimer (now : Time) (k : nat) (d : Duration) : Woken * Time :=
  let timerAt := now + Z.max 0 d in
  match cancelAt env with
  | None => (TimerFired, timerAt)
  | Some c =>
      let doneAt := Z.max c now in
      if doneAt <? timerAt then (CtxDone, doneAt)
      else if timerAt <? doneAt then (TimerFired, timerAt)
      else if timerFirst env k then (TimerFired, timerAt)
      else (CtxDone, doneAt)
  end.

Definition waitOrDone (k : WaitKind) (d : Duration) : M Woken :=
  fun s =>
    let r := raceTimer (clock s) (tick s) d in
    Done r.1 (mkState (self s) r.2 (S (tick s))
                      (trace s ++ [(clock s, Wait k d r.1)])).

(** The library calls the agent makes, with their results as Go sees them. *)
Definition asError (r : Reply) : error :=
  match failure r with Some n => Some (LibraryError n) | None => None end.

(** A call that returns a fresh handle or an error.  The handle is the
    number of the interaction that created it. *)
Definition callForHandle (op : Op) : M (nat + GoErr) :=
  fun s =>
    (let! r := call op in
     ret (match failure r with
          | None => inl (tick s)
          | Some n => inr (LibraryError n)
          end)) s.

Definition sshDial (a : Agent) : M (Client + GoErr) :=
  callForHandle (Dial (Host a) (Port a) (Username a) (Password a)).

Definition newSession (c : Client) : M (Session + GoErr) :=
  callForHandle (NewSession c).

(** [a.Connection.NewSession()]: a nil [a.Connection] is a nil dereference. *)
Definition connectionNewSession : M (Session + GoErr) :=
  let! a := getSelf in
  match Connection a with
  | None => eval (Panics NilDereference)
  | Some c => newSession c
  end.

Definition sessCall (op : Op) : M error :=
  let! r := call op in ret (asError r).

Definition sessOutput (sess : Session) (cmd : string) : M (string + GoErr) :=
  let! r := call (Output sess cmd) in
  ret (match failure r with
       | None => inl (payload r)
       | Some n => inr (LibraryError n)
       end).

Definition sessClose (sess : Session) : M unit :=
  let! _ := call (SessionClose sess) in ret tt.

(** [ctx.Err()] after [ctx.Done()] is closed. *)
Definition ctxErr : error := Some ContextCanceled.

(** ** [Close] *)

Definition Close : M unit :=
  let! _ := log LvlDebug MsgClosing in
  let! a := getSelf in
  match Connection a with
  | Some c =>
      let! _ := call (ClientClose c) in
      modifySelf (setConnection None)
  | None => ret tt
  end.

(** ** [Connect] *)

(** The retry loop [for attempt := 0; attempt < maxAttempts; attempt++]
    from the iteration [attempt] on. *)
Fixpoint connectLoop (fuel : nat) (maxAttempts attempt : Z) (lastErr : error)
  : M error :=
  if attempt <? maxAttempts then
    match fuel with
    | O => outOfFuel
    | S fuel' =>
        let! cancelled := ctxIsDone in
        if cancelled then ret ctxErr
        else
          let! a := getSelf in
          let! r := sshDial a in
          match r with
          | inl conn =>
              let! now := timeNow in
              let! _ := modifySelf (setConnectionStart now) in
              let! _ := modifySelf (setConnection (Some conn)) in
              let! now' := timeNow in
              let! _ := log LvlDebug (MsgConnected now' (Host a) (Port a)) in
              ret None
          | inr err =>
              if attempt <? sub64 maxAttempts 1 then
                let! backoff := eval (getBackoffDuration a attempt) in
                let! _ := log LvlWarn (MsgRetrying (add64 attempt 1) backoff err) in
                let! w := waitOrDone Backoff backoff in
                match w with
                | CtxDone => ret ctxErr
                | TimerFired =>
                    connectLoop fuel' maxAttempts (add64 attempt 1) (Some err)
                end
              else connectLoop fuel' maxAttempts (add64 attempt 1) (Some err)
          end
    end
  else
    let! _ := log LvlError (MsgConnectFailed maxAttempts lastErr) in
    ret lastErr.

Definition Connect : M error :=
  let! a := getSelf in
  match Connection a with
  | Some _ => ret None
  | None =>
      let! w := (if 0 <? ConnectionDelay a
                 then waitOrDone PreConnect (mul64 (ConnectionDelay a) Second)
                 else ret TimerFired) in
      match w with
      | CtxDone => ret ctxErr
      | TimerFired =>
          let maxAttempts := add64 (MaxRetries a) 1 in
          connectLoop (Z.to_nat maxAttempts) maxAttempts 0 None
      end
  end.

(** ** The command loops *)

(** [a.ConnectionStart.Add(time.Duration(a.ConnectionTTL) * time.Second)
    .Before(time.Now())] *)
Definition ttlReached (a : Agent) (now : Time) : bool :=
  ConnectionStart a + mul64 (ConnectionTTL a) Second <? now.

(** How one pass through a loop body ends. *)
Inductive Flow : Type :=
| Return (e : error)
| Continue.

Definition standardModes : list (TermMode * Z) :=
  [(TTY_OP_ISPEED, 14400); (TTY_OP_OSPEED, 14400)].

Definition ttyModes : list (TermMode * Z) :=
  [(ECHO, 0); (ECHOCTL, 0); (TTY_OP_ISPEED, 14400); (TTY_OP_OSPEED, 14400)].

Definition xterm : string := "xterm-256color".

(** The body of the loop of [RunStandardProgram] down to the
    [sess.Close()] that follows a successful command. *)
Definition standardCycle (idx : Z) : M Flow :=
  let! cancelled := ctxIsDone in
  if cancelled then
    let! _ := log LvlInfo MsgContextCancelled in ret (Return None)
  else
    let! a := getSelf in
    let! now := timeNow in
    if ttlReached a now then
      let! _ := log LvlInfo MsgTTLReached in ret (Return None)
    else
      let! command := eval (getCommand a idx) in
      let! r := connectionNewSession in
      match r with
      | inr err => ret (Return (Some err))
      | inl sess =>
          let! e := sessCall (RequestPty sess xterm 100 30 standardModes) in
          match e with
          | Some err =>
              let! _ := sessClose sess in
              let! _ := Close in
              ret (Return (Some err))
          | None =>
              let! _ := log LvlDebug (MsgRunning command) in
              let! o := sessOutput sess command in
              match o with
              | inr err =>
                  let! _ := log LvlError (MsgRunFailed err) in
                  let! _ := sessClose sess in
                  let! _ := Close in
                  ret (Return (Some err))
              | inl out =>
                  let! _ := log LvlInfo (MsgOutput out) in
                  let! _ := sessClose sess in
                  ret Continue
              end
          end
      end.

(** The context-aware sleep that ends a cycle of [RunStandardProgram]. *)
Definition cadenceSleep : M Flow :=
  let! a := getSelf in
  let! d := eval (getSleepDuration a) in
  let! w := waitOrDone Cadence d in
  match w with
  | CtxDone => ret (Return None)
  | TimerFired => ret Continue
  end.

Fixpoint standardLoop (fuel : nat) (idx : Z) : M error :=
  match fuel with
  | O => outOfFuel
  | S fuel' =>
      let! f := standardCycle idx in
      match f with
      | Return e => ret e
      | Continue =>
          let! f' := cadenceSleep in
          match f' with
          | Return e => ret e
          | Continue => standardLoop fuel' (add64 idx 1)
          end
      end
  end.

Definition RunStandardProgram (fuel : nat) : M error :=
  let! a := getSelf in
  match Connection a with
  | None => ret (Some ConnectionIsNil)
  | Some _ => standardLoop fuel 0
  end.

Definition CR : string := String (Ascii.ascii_of_nat 13) EmptyString.

(** The body of the loop of [RunTTYProgram] down to the write to stdin. *)
Definition ttyCycle (sess : Session) (idx : Z) : M Flow :=
  let! cancelled := ctxIsDone in
  if cancelled then
    let! _ := log LvlInfo MsgContextCancelled in ret (Return None)
  else
    let! a := getSelf in
    let! now := timeNow in
    if ttlReached a now then
      let! _ := log LvlInfo MsgTTLReached in ret (Return None)
    else
      let! command := eval (getCommand a idx) in
      let! _ := log LvlDebug (MsgRunning command) in
      let! _ := log LvlDebug MsgWritingStdin in
      let! e := sessCall (StdinWrite sess (command ++ CR)) in
      match e with
      | Some err => let! _ := log LvlError (MsgWriteFailed err) in ret (Return (Some err))
      | None => ret Continue
      end.

(** The end of a cycle of [RunTTYProgram]: the sleep duration is logged,
    then computed again for the timer. *)
Definition ttySleep : M Flow :=
  let! a := getSelf in
  let! d := eval (getSleepDuration a) in
  let! _ := log LvlDebug (MsgSleeping d) in
  let! a' := getSelf in
  let! d' := eval (getSleepDuration a') in
  let! w := waitOrDone Cadence d' in
  match w with
  | CtxDone => ret (Return None)
  | TimerFired => ret Continue
  end.

Fixpoint ttyLoop (fuel : nat) (sess : Session) (idx : Z) : M error :=
  match fuel with
  | O => outOfFuel
  | S fuel' =>
      let! f := ttyCycle sess idx in
      match f with
      | Return e => ret e
      | Continue =>
          let! f' := ttySleep in
          match f' with
          | Return e => ret e
          | Continue => ttyLoop fuel' sess (add64 idx 1)
          end
      end
  end.

(** What [RunTTYProgram] does with the session once [defer sess.Close()]
    is in place. *)
Definition ttySetup (fuel : nat) (sess : Session) : M error :=
  let! e := sessCall (RequestPty sess xterm 100 30 ttyModes) in
  match e with
  | Some err => let! _ := Close in ret (Some err)
  | None =>
      let! e := sessCall (StdinPipe sess) in
      match e with
      | Some err => let! _ := Close in ret (Some err)
      | None =>
          let! e := sessCall (StdoutPipe sess) in
          match e with
          | Some err => let! _ := Close in ret (Some err)
          | None =>
              let! _ := goDrain sess Stdout in
              let! e := sessCall (StderrPipe sess) in
              match e with
              | Some err => let! _ := Close in ret (Some err)
              | None =>
                  let! _ := goDrain sess Stderr in
                  let! e := sessCall (Shell sess) in
                  match e with
                  | Some err => let! _ := Close in ret (Some err)
                  | None =>
                      let! _ := log LvlDebug MsgWaitingForShell in
                      let! w := waitOrDone ShellWarmup (mul64 Second 10) in
                      match w with
                      | CtxDone => ret ctxErr
                      | TimerFired => ttyLoop fuel sess 0
                      end
                  end
              end
          end
      end
  end.

Definition RunTTYProgram (fuel : nat) : M error :=
  let! a := getSelf in
  match Connection a with
  | None => ret (Some ConnectionIsNil)
  | Some c =>
      let! r := newSession c in
      match r with
      | inr err => ret (Some err)
      | inl sess => defer (sessClose sess) (ttySetup fuel sess)
      end
  end.

Definition RunProgram (fuel : nat) : M error :=
  let! a := getSelf in
  if UseTTY a then RunTTYProgram fuel else RunStandardProgram fuel.

End World.

(** * Vocabulary of the statements *)

(** The events a run appended to the trace it started with. *)
Definition appended (s s' : State) (new : list (Time * Event)) : Prop :=
  trace s' = trace s ++ new.

Definition isDial (e : Time * Event) : bool :=
  match e.2 with Call (Dial _ _ _ _) _ => true | _ => false end.




(** The error of each dial of a trace, in order ([None]: it succeeded). *)
Definition dialResult (e : Time * Event) : option error :=
  match e.2 with
  | Call (Dial _ _ _ _) (Some n) => Some (Some (LibraryError n))
  | Call (Dial _ _ _ _) None => Some None
  | _ => None
  end.

Definition dialResults (tr : list (Time * Event)) : list error :=
  omap dialResult tr.

(** The backoff policy as a total function of the attempt index. *)
Definition delay (a : Agent) (attempt : Z) : Duration :=
  match getBackoffDuration a attempt with
  | Value d => d
  | Panics _ => 0
  end.




(** A wait that [ctx.Done()] ended. *)
Definition isCancelledWait (e : Time * Event) : bool :=
  match e.2 with Wait _ _ CtxDone => true | _ => false end.

(** What a trace holds after its first wait that [ctx.Done()] ended. *)
Fixpoint afterCancelledWait (tr : list (Time * Event)) : list (Time * Event) :=
  match tr with
  | [] => []
  | e :: tr' => if isCancelledWait e then tr' else afterCancelledWait tr'
  end.

(** Did a dial of the trace succeed? *)
Definition dialSucceeded (tr : list (Time * Event)) : bool :=
  existsb (fun e => match dialResult e with Some None => true | _ => false end)
          tr.

(** [s'] is [s] after a successful dial: the last library call of the trace
    is a dial that succeeded, the agent holds its connection, and
    [ConnectionStart] is the instant that dial returned at. *)
Definition connectedBy (env : Env) (s s' : State) : Prop :=
  exists (c : Client) (t : Time) (k : nat) (tr : list (Time * Event)),
    trace s' = tr ++ [(t, Call (Dial (Host (self s)) (Port (self s))
                                     (Username (self s)) (Password (self s))) None);
                      (clock s', Log LvlDebug
                         (MsgConnected (clock s') (Host (self s)) (Port (self s))))] /\
    failure (reply env k) = None /\
    clock s' = t + Z.of_nat (elapsed (reply env k)) /\
    self s' = setConnection (Some c) (setConnectionStart (clock s') (self s)).

(** A cadence wait lasts what [getSleepDuration] gives for the agent [a]. *)
Definition cadenceWaitIs (a : Agent) (e : Time * Event) : Prop :=
  forall d w, e.2 = Wait Cadence d w -> getSleepDuration a = Value d.

Definition noCall (e : Time * Event) : Prop :=
  forall op f, e.2 <> Call op f.

(** What a run of either mode guarantees: the trace only grows, every
    cadence wait lasts what [getSleepDuration] says for the agent the run
    started with, and within [2^63] cycles no index is out of range. *)
Definition runSound (s : State) (fuel : nat) (o : Outcome error) : Prop :=
  exists new,
    trace (stateOf o) = trace s ++ new /\
    Forall (cadenceWaitIs (self s)) new /\
    (Z.of_nat fuel <= 2 ^ 63 ->
     forall p s', o = Panicked p s' -> p <> IndexOutOfRange).

(** An environment in which every library call fails and the context is
    never cancelled. *)
Definition neverCancelled (env : Env) : Prop := cancelAt env = None.

(** ** Concrete runs *)

(** The defaults of the command line: [-rate 6], [-ttl 60], no script. *)
Definition agentWith (retries : Z) (script : list string) : Agent :=
  mkAgent "localhost" 22 "sshmob" "secret" "" false None 0 60 0 6 script retries.

Definition agentAtRate (rate : Z) : Agent :=
  mkAgent "localhost" 22 "sshmob" "secret" "" false None 0 60 0 rate [] 0.

(** The same agent once it holds the connection [c]. *)
Definition connected (c : Client) (a : Agent) : Agent := setConnection (Some c) a.

(** An agent that is connected and about to run its command loop. *)
Definition agentInSession : Agent := connected 7%nat (agentWith 0 []).

Definition initial (a : Agent) : State := mkState a 0 0 [].

(** Every call fails after one nanosecond; the context is never cancelled. *)
Definition envAlwaysFailing : Env :=
  mkEnv None (fun k => mkReply (Some k) 1 "") (fun _ => true).

(** The calls numbered below [k0] succeed, the others fail. *)
Definition envFailingFrom (k0 : nat) : Env :=
  mkEnv None
        (fun k => mkReply (if (k <? k0)%nat then None else Some k) 1 "")
        (fun _ => true).

(** Every call succeeds after one nanosecond; the context is cancelled at
    the instant [c]. *)
Definition envCancelledAt (c : Time) : Env :=
  mkEnv (Some c) (fun _ => mkReply None 1 "ok") (fun _ => true).

(** ** [main.go]: the command script *)

Definition LF : Ascii.ascii := Ascii.ascii_of_nat 10.
Definition semicolon : Ascii.ascii := Ascii.ascii_of_nat 59.

(** [strings.Split(s, sep)] of Go's standard library for a separator of one
    byte, which is how [parseScript] calls it: the substrings between the
    separators, one more than there are separators. *)
Fixpoint stringsSplit (s : string) (sep : Ascii.ascii) : list string :=
  match s with
  | EmptyString => [EmptyString]
  | String c rest =>
      if Ascii.eqb c sep then EmptyString :: stringsSplit rest sep
      else match stringsSplit rest sep with
           | x :: xs => String c x :: xs
           | [] => [String c EmptyString]
           end
  end.

(** What [os.Stat] and [os.ReadFile] answer for a path: whether [os.Stat]
    returns no error, and the contents or the error of [os.ReadFile]. *)
Record FileSystem : Type := mkFileSystem {
  osStat : string -> bool;
  osReadFile : string -> string + nat
}.

(** [fmt.Errorf("Failed to read script file: %s", err)] *)
Inductive ScriptError : Type :=
| FailedToReadScriptFile (cause : nat).

(** [parseScript]: the result is the slice of lines or the error. *)
Definition parseScript (fs : FileSystem) (script : string)
  : list string + ScriptError :=
  let data := if osStat fs script then osReadFile fs script else inl script in
  match data with
  | inr err => inr (FailedToReadScriptFile err)
  | inl dataStr =>
      let lines := stringsSplit dataStr LF in
      inl (if len lines =? 1 then stringsSplit dataStr semicolon else lines)
  end.

(** The lines joined again with a separator between them. *)
Fixpoint joined (lines : list string) (sep : Ascii.ascii) : string :=
  match lines with
  | [] => EmptyString
  | [l] => l
  | l :: rest => (l ++ String sep (joined rest sep))%string
  end.

Fixpoint hasByte (c : Ascii.ascii) (s : string) : bool :=
  match s with
  | EmptyString => false
  | String c' rest => Ascii.eqb c' c || hasByte c rest
  end.

(** The text [parseScript] splits: the file at the path, or the argument. *)
Definition scriptText (fs : FileSystem) (script : string) (data : string) : Prop :=
  if osStat fs script then osReadFile fs script = inl data else data = script.

(** A file system without the path, and one that holds a file there. *)
Definition noFile : FileSystem := mkFileSystem (fun _ => false) (fun _ => inr 2%nat).
Definition fileWith (path contents : string) : FileSystem :=
  mkFileSystem (fun p => String.eqb p path)
               (fun p => if String.eqb p path then inl contents else inr 2%nat).

(** The first [k0] interactions fail, the later ones succeed. *)
Definition envSucceedingFrom (k0 : nat) : Env :=
  mkEnv None
        (fun k => mkReply (if (k <? k0)%nat then Some k else None) 1 "ok")
        (fun _ => true).

(** ** Vocabulary for runs of the command loops *)

(** Sessions over a trace: [open] says whether a session is open; opening
    one while one is open, or closing one while none is, has no result. *)
Definition sessionStep (open : bool) (e : Time * Event) : option bool :=
  match e.2 with
  | Call (NewSession _) None => if open then None else Some true
  | Call (SessionClose _) _ => if open then Some false else None
  | _ => Some open
  end.

Fixpoint sessionFlow (open : bool) (tr : list (Time * Event)) : option bool :=
  match tr with
  | [] => Some open
  | e :: tr' =>
      match sessionStep open e with
      | Some open' => sessionFlow open' tr'
      | None => None
      end
  end.

(** The calls whose failure makes a loop call [a.Close()]. *)
Definition fatalToConnection (e : Time * Event) : bool :=
  match e.2 with
  | Call (RequestPty _ _ _ _ _) (Some _)
  | Call (StdinPipe _) (Some _)
  | Call (StdoutPipe _) (Some _)
  | Call (StderrPipe _) (Some _)
  | Call (Shell _) (Some _)
  | Call (Output _ _) (Some _) => true
  | _ => false
  end.

Definition released (tr : list (Time * Event)) : bool :=
  existsb fatalToConnection tr.

(** The commands a run sent to the server, in order: the argument of each
    [sess.Output] and the bytes of each write to the shell's stdin. *)
Definition commandIssued (e : Time * Event) : option string :=
  match e.2 with
  | Call (Output _ cmd) _ => Some cmd
  | Call (StdinWrite _ data) _ => Some data
  | _ => None
  end.

Definition commandsIssued (tr : list (Time * Event)) : list string :=
  omap commandIssued tr.

(** The command of the script at an index, as [getCommand] gives it. *)
Definition commandAt (a : Agent) (idx : Z) : string :=
  match getCommand a idx with
  | Value c => c
  | Panics _ => EmptyString
  end.

(** What is sent for a command: the command itself to [sess.Output], the
    command and a carriage return to the shell. *)
Definition onTheWire (tty : bool) (cmd : string) : string :=
  if tty then String.append cmd CR else cmd.

(** What a run of a command loop guarantees in the mode [tty]: its
    sessions are balanced once it has ended, the agent loses its connection
    exactly on a failure that is fatal to it, and the commands sent are
    those of the script, in order. *)
Definition runFacts (tty : bool) (s : State) (fuel : nat) (o : Outcome error)
  : Prop :=
  exists new,
    trace (stateOf o) = trace s ++ new /\
    match o with
    | OutOfFuel _ => True
    | _ => sessionFlow false new = Some false
    end /\
    (if released new then self (stateOf o) = setConnection None (self s)
     else self (stateOf o) = self s) /\
    (Z.of_nat fuel <= 2 ^ 63 ->
     exists n, (n <= fuel)%nat /\
       commandsIssued new =
         map (fun i => onTheWire tty (commandAt (self s) (Z.of_nat i)))
             (seq 0 n)).

(** The instants at which the commands of a trace were sent, in order. *)
Definition commandTime (e : Time * Event) : option Time :=
  match commandIssued e with
  | Some _ => Some e.1
  | None => None
  end.

Definition commandTimes (tr : list (Time * Event)) : list Time :=
  omap commandTime tr.

(** Instants that are not before [t0] and at least [gap] apart. *)
Fixpoint spacedFrom (gap : Duration) (t0 : Time) (ts : list Time) : Prop :=
  match ts with
  | [] => True
  | t :: ts' => t0 <= t /\ spacedFrom gap (t + gap) ts'
  end.

(** The instant the TTL ends at, as the loops compute it. *)
Definition deadline (a : Agent) : Time :=
  ConnectionStart a + mul64 (ConnectionTTL a) Second.

(** Instants of commands under a deadline: at [t0], before the first of
    them, the deadline had not passed, and each further one follows a pause
    after which the deadline had not passed. *)
Fixpoint pacedUntil (gap : Duration) (dl : Time) (t0 : Time) (ts : list Time)
  : Prop :=
  match ts with
  | [] => True
  | t :: ts' => t0 <= dl /\ t0 <= t /\ pacedUntil gap dl (t + gap) ts'
  end.

(** The line of the script a cycle sends: [getCommand] at an index that is
    not negative. *)
Definition scriptLine (script : list string) (i : nat) : string :=
  match script with
  | [] => defaultCommand
  | _ => default EmptyString (script !! i)
  end.

(** The library calls of a trace, in order. *)
Definition callOf (e : Time * Event) : option Op :=
  match e.2 with
  | Call op _ => Some op
  | _ => None
  end.

Definition callsOf (tr : list (Time * Event)) : list Op := omap callOf tr.


(** An agent in interactive mode. *)
Definition interactive (a : Agent) : Agent :=
  mkAgent (Host a) (Port a) (Username a) (Password a) (PrivateKeyPath a)
          true (Connection a) (ConnectionDelay a) (ConnectionTTL a)
          (ConnectionStart a) (CommandRate a) (CommandScript a) (MaxRetries a).

(** Every interaction succeeds after one nanosecond and nobody cancels. *)
Definition envAllOk : Env :=
  mkEnv None (fun _ => mkReply None 1 "ok") (fun _ => true).

(** * Facts about Go integers *)

Lemma wrap64_id z : inInt64 z -> wrap64 z = z.
Proof.
  unfold inInt64, MinInt64, MaxInt64, wrap64. intros Hz.
  rewrite Z.mod_small; lia.
Qed.

Lemma wrap64_range z : inInt64 (wrap64 z).
Proof.
  unfold inInt64, MinInt64, MaxInt64, wrap64.
  pose proof (Z.mod_pos_bound (z + 2 ^ 63) (2 ^ 64) ltac:(lia)). lia.
Qed.

Lemma wrap64_mul_l x y : wrap64 (wrap64 x * y) = wrap64 (x * y).
Proof.
  unfold wrap64 at 1 3. f_equal.
  unfold wrap64. rewrite (Z.mod_eq (x + 2 ^ 63) (2 ^ 64)) by lia.
  replace ((x + 2 ^ 63 - 2 ^ 64 * ((x + 2 ^ 63) / 2 ^ 64) - 2 ^ 63) * y + 2 ^ 63)
    with (x * y + 2 ^ 63 + (- ((x + 2 ^ 63) / 2 ^ 64) * y) * 2 ^ 64) by ring.
  apply Z.mod_add. lia.
Qed.

(** * The backoff policy *)


(** Whatever the attempt, the policy never exceeds 16 seconds. *)
Lemma getBackoffDuration_capped (a : Agent) (attempt : Z) (d : Duration) :
  getBackoffDuration a attempt = Value d -> d <= 16 * Second.
Proof.
  unfold getBackoffDuration. destruct (shl64 1 attempt) as [sh|p]; [|done].
  cbv zeta. destruct (Z.ltb_spec (16 * Second) (mul64 sh Second));
    intros [= <-]; lia.
Qed.

(** It panics on no attempt index [>= 0]. *)
Lemma getBackoffDuration_total (a : Agent) (attempt : Z) :
  0 <= attempt -> getBackoffDuration a attempt = Value (delay a attempt).
Proof.
  intros H. unfold delay, getBackoffDuration, shl64.
  destruct (Z.ltb_spec attempt 0); [lia|]. cbv zeta. by case_match.
Qed.

(** From attempt 55 on every bit of the product is shifted out of the
    [int64]: the policy is zero. *)
Lemma getBackoffDuration_from_55 (a : Agent) (attempt : Z) :
  55 <= attempt -> getBackoffDuration a attempt = Value 0.
Proof.
  intros H. unfold getBackoffDuration, shl64.
  destruct (Z.ltb_spec attempt 0); [lia|].
  rewrite Z.shiftl_mul_pow2, Z.mul_1_l by lia.
  unfold mul64. rewrite wrap64_mul_l.
  assert (Hw : wrap64 (2 ^ attempt * Second) = 0).
  { replace attempt with (55 + (attempt - 55)) by lia.
    rewrite Z.pow_add_r by lia. unfold wrap64, Second.
    replace (2 ^ 55 * 2 ^ (attempt - 55) * 1000000000 + 2 ^ 63)
      with (2 ^ 63 + (2 ^ (attempt - 55) * 1953125) * 2 ^ 64) by ring.
    rewrite Z.mod_add by lia. reflexivity. }
  cbv zeta. rewrite Hw. reflexivity.
Qed.

(** C1. The claim: for every attempt index a >= 0 the policy is
    min(2^a, 16) seconds, non-decreasing and at most 16 seconds.  The code
    computes [2^a * 10^9] in an [int64] before it applies the cap: at attempt
    34 the product wraps around to a negative duration, which the cap lets
    through.  So delay(34) is not the 16 seconds the claim, the comment in
    the code and the design note give, and it is below delay(33): the policy
    is not non-decreasing.  From attempt 55 on the policy is zero. *)
Theorem C1_backoff_wraps_at_34 (a : Agent) :
  getBackoffDuration a 33 = Value (16 * Second) /\
  getBackoffDuration a 34 = Value (-1266874889709551616) /\
  getBackoffDuration a 34 <> Value (Z.min (2 ^ 34) 16 * Second) /\
  delay a 34 < delay a 33 /\
  getBackoffDuration a 55 = Value 0.
Proof.
  repeat split; try (vm_compute; congruence).
Qed.

(** * The command source *)

Lemma index_lookup {A} (l : list A) (i : Z) (x : A) :
  0 <= i -> l !! Z.to_nat i = Some x -> index l i = Value x.
Proof.
  intros Hi Hl. unfold index.
  destruct (Z.ltb_spec i 0); [lia|]. by rewrite Hl.
Qed.

Lemma index_in_bounds {A} (l : list A) (i : Z) :
  0 <= i < len l -> exists x, l !! Z.to_nat i = Some x /\ index l i = Value x.
Proof.
  unfold len. intros Hi.
  destruct (lookup_lt_is_Some_2 l (Z.to_nat i)) as [x Hx]; [lia|].
  exists x. split; [done|]. apply index_lookup; [lia|done].
Qed.

(** C3. With a script of length L > 0, [getCommand] at an index i with
    0 <= i < L is the i-th entry of the script, and at an index i >= L it is
    the empty string; in neither case does it panic.  With no script, it is
    the same default command at every index. *)
Theorem C3_getCommand (a : Agent) (i : Z) :
  (0 < len (CommandScript a) ->
     (0 <= i < len (CommandScript a) ->
        exists s, CommandScript a !! Z.to_nat i = Some s /\
                  getCommand a i = Value s) /\
     (len (CommandScript a) <= i -> getCommand a i = Value ""%string)) /\
  (CommandScript a = [] -> getCommand a i = Value defaultCommand).
Proof.
  unfold getCommand. split.
  - intros HL. destruct (Z.ltb_spec 0 (len (CommandScript a))); [|lia].
    split; intros Hi.
    + destruct (Z.leb_spec (len (CommandScript a)) i); [lia|].
      by apply index_in_bounds.
    + by destruct (Z.leb_spec (len (CommandScript a)) i); [|lia].
  - by intros ->.
Qed.

(** * The cadence *)

Lemma getSleepDuration_positive_rate (a : Agent) :
  0 < CommandRate a ->
  getSleepDuration a = Value (60 / CommandRate a * Second) /\
  0 <= 60 / CommandRate a <= 60.
Proof.
  intros Hr. unfold getSleepDuration, div64.
  destruct (Z.eqb_spec (CommandRate a) 0); [lia|].
  rewrite Z.quot_div_nonneg by lia.
  assert (Hq : 0 <= 60 / CommandRate a <= 60).
  { split; [apply Z.div_pos; lia|].
    apply Z.div_le_upper_bound; nia. }
  split; [|done].
  rewrite wrap64_id by (unfold inInt64, MinInt64, MaxInt64; lia).
  unfold mul64. rewrite wrap64_id; [done|].
  unfold inInt64, MinInt64, MaxInt64, Second; lia.
Qed.

(** * [Close] *)

(** C9. [Close] on an agent that holds no connection changes neither the
    agent nor the clock and makes no library call: it only writes its debug
    line.  After any [Close] the stored connection is [nil].  Hence a second
    [Close] leaves the agent as the first one left it. *)
Theorem C9_Close_idempotent (env : Env) (s : State) :
  (Connection (self s) = None ->
     Close env s = Done tt (emit (Log LvlDebug MsgClosing) s)) /\
  (exists s1,
     Close env s = Done tt s1 /\
     Connection (self s1) = None /\
     exists s2,
       Close env s1 = Done tt s2 /\
       self s2 = self s1 /\ clock s2 = clock s1 /\ tick s2 = tick s1 /\
       trace s2 = trace s1 ++ [(clock s1, Log LvlDebug MsgClosing)]).
Proof.
  split.
  - intros Hc. unfold Close, bind, log, getSelf. simpl. by rewrite Hc.
  - unfold Close, bind, log, getSelf, modifySelf, call. simpl.
    destruct (Connection (self s)) as [c|] eqn:Hc; simpl.
    + eexists. split; [reflexivity|]. simpl. split; [done|].
      eexists. split; [reflexivity|]. done.
    + eexists. split; [reflexivity|]. simpl. split; [done|].
      rewrite Hc. eexists. split; [reflexivity|]. done.
Qed.

(** * The command loop without a connection *)

(** C7. Run on an agent whose connection is [nil], in either mode, returns
    the error "Connection is nil" at once: the state it returns is the state
    it was called in, so nothing was appended to the trace, no session was
    opened and no command was issued. *)
Theorem C7_run_without_connection (env : Env) (fuel : nat) (s : State) :
  Connection (self s) = None ->
  RunStandardProgram env fuel s = Done (Some ConnectionIsNil) s /\
  RunTTYProgram env fuel s = Done (Some ConnectionIsNil) s /\
  RunProgram env fuel s = Done (Some ConnectionIsNil) s.
Proof.
  intros Hc.
  assert (Hs : RunStandardProgram env fuel s = Done (Some ConnectionIsNil) s).
  { unfold RunStandardProgram, bind, getSelf. by rewrite Hc. }
  assert (Ht : RunTTYProgram env fuel s = Done (Some ConnectionIsNil) s).
  { unfold RunTTYProgram, bind, getSelf. by rewrite Hc. }
  repeat split; [done..|].
  unfold RunProgram, bind, getSelf. by destruct (UseTTY (self s)).
Qed.

(** * [Connect] *)

(** Symbolic execution of monadic code: unfold the sequencing and reduce
    the primitive operations. *)
Tactic Notation "run" "in" hyp(H) :=
  unfold connectionNewSession, sshDial, newSession, sessCall, sessOutput,
    sessClose, callForHandle, asError, bind in H;
  cbn [ret getSelf modifySelf timeNow log goDrain eval emit call
       ctxIsDone waitOrDone outOfFuel
       self clock tick trace stateOf fst snd] in H.

Ltac run :=
  unfold connectionNewSession, sshDial, newSession, sessCall, sessOutput,
    sessClose, callForHandle, asError, bind;
  cbn [ret getSelf modifySelf timeNow log goDrain eval emit call
       ctxIsDone waitOrDone outOfFuel
       self clock tick trace stateOf fst snd].

Section ConnectFacts.

Variable env : Env.

Lemma connectLoop_exit fuel maxAttempts attempt lastErr s :
  maxAttempts <= attempt ->
  connectLoop env fuel maxAttempts attempt lastErr s =
    Done lastErr (emit (Log LvlError (MsgConnectFailed maxAttempts lastErr)) s).
Proof.
  intros H. destruct fuel; simpl;
    destruct (Z.ltb_spec attempt maxAttempts); (lia || done).
Qed.

(** A wait ends no earlier than it began, and one that lets the program go
    on has run to its end. *)
Lemma raceTimer_spec now k d :
  now <= (raceTimer env now k d).2 /\
  ((raceTimer env now k d).1 = CtxDone ->
     signaledAt env (raceTimer env now k d).2 = true) /\
  ((raceTimer env now k d).1 = TimerFired ->
     (raceTimer env now k d).2 = now + Z.max 0 d).
Proof.
  unfold raceTimer, signaledAt. destruct (cancelAt env) as [c|]; cbn.
  2:{ split; [lia|]. done. }
  repeat case_match; cbn; split; try lia; split; try done; intros _; lia.
Qed.

Lemma signaledAt_later t t' :
  signaledAt env t = true -> t <= t' -> signaledAt env t' = true.
Proof.
  unfold signaledAt. destruct (cancelAt env) as [c|]; [|done].
  intros H%Z.leb_le Hle. apply Z.leb_le. lia.
Qed.


Ltac tidy := unfold dialSucceeded, dialResults; cbn; repeat split; try done.

Lemma connectLoop_sound fuel maxAttempts attempt lastErr s :
  0 <= attempt -> inInt64 maxAttempts ->
  (Z.to_nat (maxAttempts - attempt) <= fuel)%nat ->
  exists res s' new,
    connectLoop env fuel maxAttempts attempt lastErr s = Done res s' /\
    trace s' = trace s ++ new /\
    afterCancelledWait new = [] /\
    (existsb isCancelledWait new = true -> res = Some ContextCanceled) /\
    (signaledAt env (clock s) = true -> dialResults new = []) /\
    (if dialSucceeded new then res = None /\ connectedBy env s s'
     else self s' = self s).
Proof.
  revert attempt lastErr s.
  induction fuel as [|fuel IH]; intros attempt lastErr s Ha Hm Hf.
  - rewrite connectLoop_exit by lia. do 3 eexists. split; [done|].
    simpl. split; [done|]. tidy.
  - destruct (Z.le_gt_cases maxAttempts attempt) as [Hge|Hlt].
    { rewrite connectLoop_exit by lia. do 3 eexists. split; [done|].
      simpl. split; [done|]. tidy. }
    simpl. destruct (Z.ltb_spec attempt maxAttempts); [|lia].
    unfold bind at 1. unfold ctxIsDone at 1.
    destruct (signaledAt env (clock s)) eqn:Hsig.
    { exists ctxErr, s, []. split; [done|]. split; [by rewrite app_nil_r|].
      tidy. }
    assert (Hadd : add64 attempt 1 = attempt + 1).
    { apply wrap64_id. unfold inInt64, MinInt64, MaxInt64 in *. lia. }
    assert (Hsub : sub64 maxAttempts 1 = maxAttempts - 1).
    { apply wrap64_id. unfold inInt64, MinInt64, MaxInt64 in *. lia. }
    rewrite Hadd, Hsub.
    run. destruct (failure (reply env (tick s))) as [n|] eqn:Hfail.
    + destruct (Z.ltb_spec attempt (maxAttempts - 1)).
      * rewrite getBackoffDuration_total by done. run.
        match goal with |- context [raceTimer ?e ?t ?k ?d] =>
          destruct (raceTimer e t k d) as [[|] t'] end; run.
        -- match goal with |- context [connectLoop _ _ _ _ _ ?s1] =>
             destruct (IH (attempt + 1) (Some (LibraryError n)) s1)
               as (res & s' & new & Hrun & Htr & Hac & Hcr & _ & Hself);
               [lia | done | lia |] end.
           rewrite Hrun. run in Htr; run in Hself.
           do 3 eexists. split; [done|].
           split; [by rewrite Htr, <- !app_assoc|].
           unfold dialSucceeded, dialResults in *. cbn. done.
        -- do 3 eexists. split; [done|]. run.
           split; [by rewrite <- !app_assoc|]. tidy.
      * match goal with |- context [connectLoop _ _ _ _ _ ?s1] =>
             destruct (IH (attempt + 1) (Some (LibraryError n)) s1)
               as (res & s' & new & Hrun & Htr & Hac & Hcr & _ & Hself);
               [lia | done | lia |] end.
        rewrite Hrun. run in Htr; run in Hself.
        do 3 eexists. split; [done|].
        split; [by rewrite Htr, <- !app_assoc|].
        unfold dialSucceeded, dialResults in *. cbn. done.
    + run. do 3 eexists. split; [done|]. run.
      split; [by rewrite <- !app_assoc|].
      unfold dialSucceeded. cbn.
      do 3 (split; [done|]). split; [done|].
      exists (tick s), (clock s), (tick s), (trace s).
      run. split; [by rewrite <- app_assoc|]. done.
Qed.

Lemma Connect_sound s :
  exists res s' new,
    Connect env s = Done res s' /\
    trace s' = trace s ++ new /\
    afterCancelledWait new = [] /\
    (existsb isCancelledWait new = true -> res = Some ContextCanceled) /\
    (signaledAt env (clock s) = true -> dialResults new = []) /\
    (if dialSucceeded new then res = None /\ connectedBy env s s'
     else self s' = self s).
Proof.
  unfold Connect. run.
  destruct (Connection (self s)) as [c|].
  { run. exists None, s, []. split; [done|]. split; [by rewrite app_nil_r|].
    tidy. }
  pose proof (wrap64_range (MaxRetries (self s) + 1)) as Hmax.
  fold (add64 (MaxRetries (self s)) 1) in Hmax.
  destruct (0 <? ConnectionDelay (self s)); run.
  - match goal with |- context [raceTimer ?e ?t ?k ?d] =>
      pose proof (proj1 (raceTimer_spec t k d)) as Hlater;
      destruct (raceTimer e t k d) as [[|] t'] end; run.
    + match goal with |- context [connectLoop _ ?f ?m 0 None ?s1] =>
        destruct (connectLoop_sound f m 0 None s1)
          as (res & s' & new & Hrun & Htr & Hac & Hcr & Hsg & Hself);
          [lia | done | lia |] end.
      rewrite Hrun. run in Htr; run in Hself. run in Hsg.
      cbn [snd] in Hlater.
      do 3 eexists. split; [done|].
      split; [by rewrite Htr, <- !app_assoc|].
      unfold dialSucceeded, dialResults in *. cbn.
      do 2 (split; [done|]). split; [|done].
      intros Hsig. apply Hsg. by apply (signaledAt_later (clock s)).
    + do 3 eexists. split; [done|]. run. split; [done|]. tidy.
  - match goal with |- context [connectLoop _ ?f ?m 0 None ?s1] =>
      destruct (connectLoop_sound f m 0 None s1)
        as (res & s' & new & Hrun & Htr & Hac & Hcr & Hsg & Hself);
        [lia | done | lia |] end.
    rewrite Hrun. eauto 10.
Qed.

(** C8. [Connect] always returns.  Either it leaves the whole agent as it
    found it, or it returns [nil] after a dial that succeeded, and then the
    agent differs from the one it was called on only in the connection it
    now holds and in [ConnectionStart], which is the instant at which that
    dial returned.  So a [Connect] that returns an error (cancellation or
    the last dial error) has changed neither field.  And the two cases are
    told apart by the dials of the run: when one of them succeeded,
    [Connect] has returned [nil], the agent holds the connection and
    [ConnectionStart] is the instant that dial returned at; when none
    succeeded, the agent is unchanged. *)
Theorem C8_Connect_mutates_only_on_success (s : State) :
  exists res s' new,
    Connect env s = Done res s' /\ appended s s' new /\
    (self s' = self s \/ res = None /\ connectedBy env s s') /\
    (res <> None ->
       Connection (self s') = Connection (self s) /\
       ConnectionStart (self s') = ConnectionStart (self s)) /\
    (dialSucceeded new = true ->
       res = None /\ connectedBy env s s' /\
       Connection (self s') <> None /\
       ConnectionStart (self s') = clock s') /\
    (dialSucceeded new = false -> self s' = self s).
Proof.
  destruct (Connect_sound s) as (res & s' & new & Hrun & Htr & _ & _ & _ & Hself).
  exists res, s', new. do 2 (split; [done|]).
  destruct (dialSucceeded new).
  - destruct Hself as [-> Hby]. split; [by right|]. split; [done|].
    split; [|done]. intros _. do 2 (split; [done|]).
    destruct Hby as (c & t & k & tr & _ & _ & _ & ->). done.
  - split; [by left|]. split; [by rewrite Hself|]. done.
Qed.









End ConnectFacts.



(** * The standard loop *)

Ltac events :=
  repeat first
    [ apply Forall_nil_2
    | apply Forall_cons_2;
      [ first [ done | by intros ? | by intros ? ? ? ] |] ].

Section StandardFacts.

Variable env : Env.

Lemma getCommand_value a idx :
  0 <= idx -> exists c, getCommand a idx = Value c.
Proof.
  intros Hi. unfold getCommand.
  destruct (Z.ltb_spec 0 (len (CommandScript a))); [|by eexists].
  destruct (Z.leb_spec (len (CommandScript a)) idx); [by eexists|].
  destruct (index_in_bounds (CommandScript a) idx) as (c & _ & Hc); [lia|].
  by exists c.
Qed.

Lemma Close_sound s :
  exists s' new,
    Close env s = Done tt s' /\ trace s' = trace s ++ new /\
    Connection (self s') = None /\
    Forall (fun e => forall k d w, e.2 <> Wait k d w) new.
Proof.
  unfold Close. run. destruct (Connection (self s)) eqn:Hc; run.
  - do 2 eexists. split; [done|]. run. split; [by rewrite <- !app_assoc|].
    split; [done|]. repeat constructor; done.
  - do 2 eexists. split; [done|]. run. split; [done|].
    split; [done|]. repeat constructor; done.
Qed.

(** One pass through the body of the standard loop. *)
Lemma standardCycle_sound idx s :
  exists new,
    trace (stateOf (standardCycle env idx s)) = trace s ++ new /\
    Forall (fun e => forall k d w, e.2 <> Wait k d w) new /\
    match standardCycle env idx s with
    | Done Continue s' => self s' = self s
    | Done (Return _) _ => True
    | Panicked p _ =>
        (p = IndexOutOfRange /\ idx < 0) \/
        (p = NilDereference /\ Connection (self s) = None)
    | OutOfFuel _ => False
    end.
Proof.
  unfold standardCycle. run.
  destruct (signaledAt env (clock s)) eqn:Hsig; run.
  { eexists. split; [done|]. split; [events|done]. }
  destruct (ttlReached (self s) (clock s)); run.
  { eexists. split; [done|]. split; [events|done]. }
  destruct (getCommand (self s) idx) as [command|p] eqn:Hcmd; run.
  2:{ exists []. rewrite app_nil_r. do 2 (split; [done|]).
      destruct (Z.lt_ge_cases idx 0) as [?|Hge].
      - left. split; [|done]. unfold getCommand, index in Hcmd.
        repeat case_match; congruence.
      - destruct (getCommand_value (self s) idx Hge). congruence. }
  destruct (Connection (self s)) as [c|] eqn:Hc; run.
  2:{ exists []. rewrite app_nil_r. do 2 (split; [done|]).
      by right. }
  destruct (failure (reply env (tick s))) as [n|]; run.
  { eexists. split; [done|]. split; [events|done]. }
  match goal with |- context [failure ?r] => destruct (failure r) end; run.
  { unfold Close. run. rewrite Hc. run.
    eexists. split; [by rewrite <- !app_assoc|].
    split; [events|done]. }
  match goal with |- context [failure ?r] => destruct (failure r) end; run.
  { unfold Close. run. rewrite Hc. run.
    eexists. split; [by rewrite <- !app_assoc|].
    split; [events|done]. }
  eexists. split; [by rewrite <- !app_assoc|].
  split; [events|done].
Qed.

Lemma cadenceSleep_sound s :
  exists new,
    trace (stateOf (cadenceSleep env s)) = trace s ++ new /\
    Forall (cadenceWaitIs (self s)) new /\
    match cadenceSleep env s with
    | Done _ s' => self s' = self s
    | Panicked p _ => p = DivideByZero
    | OutOfFuel _ => False
    end.
Proof.
  unfold cadenceSleep. run.
  destruct (getSleepDuration (self s)) as [d|p] eqn:Hd; run.
  - destruct (raceTimer env (clock s) (tick s) d) as [[|] t']; run.
    all: eexists; split; [done|]; split; [|done].
    all: apply Forall_cons_2; [|apply Forall_nil_2].
    all: intros d' w' [= <- _]; done.
  - exists []. rewrite app_nil_r. do 2 (split; [done|]).
    unfold getSleepDuration, div64 in Hd. repeat case_match; congruence.
Qed.

Lemma standardLoop_S fuel idx s :
  standardLoop env (S fuel) idx s =
    match standardCycle env idx s with
    | Done (Return e) s1 => Done e s1
    | Done Continue s1 =>
        match cadenceSleep env s1 with
        | Done (Return e) s2 => Done e s2
        | Done Continue s2 => standardLoop env fuel (add64 idx 1) s2
        | Panicked p s2 => Panicked p s2
        | OutOfFuel s2 => OutOfFuel s2
        end
    | Panicked p s1 => Panicked p s1
    | OutOfFuel s1 => OutOfFuel s1
    end.
Proof.
  cbn [standardLoop]. unfold bind.
  destruct (standardCycle env idx s) as [[e|] s1|p s1|s1]; try done.
  destruct (cadenceSleep env s1) as [[e|] s2|p s2|s2]; done.
Qed.

Lemma no_wait_cadenceWaitIs a new :
  Forall (fun e : Time * Event => forall k d w, e.2 <> Wait k d w) new ->
  Forall (cadenceWaitIs a) new.
Proof.
  intros H. eapply Forall_impl; [exact H|].
  intros e He d w Hw. by destruct (He Cadence d w).
Qed.

(** The standard loop, for any number of cycles. *)
Lemma standardLoop_sound fuel idx s :
  exists new,
    trace (stateOf (standardLoop env fuel idx s)) = trace s ++ new /\
    Forall (cadenceWaitIs (self s)) new /\
    (0 <= idx -> idx + Z.of_nat fuel <= 2 ^ 63 ->
     forall p s', standardLoop env fuel idx s = Panicked p s' ->
                  p <> IndexOutOfRange).
Proof.
  revert idx s. induction fuel as [|fuel IH]; intros idx s.
  { exists []. rewrite app_nil_r. do 2 (split; [done|]). done. }
  rewrite standardLoop_S.
  destruct (standardCycle_sound idx s) as (n1 & Ht1 & Hw1 & Ho1).
  apply no_wait_cadenceWaitIs with (a := self s) in Hw1.
  destruct (standardCycle env idx s) as [[e|] s1|p s1|s1]; cbn [stateOf] in *.
  - exists n1. do 2 (split; [done|]). done.
  - destruct (cadenceSleep_sound s1) as (n2 & Ht2 & Hw2 & Ho2).
    rewrite Ho1 in Hw2.
    destruct (cadenceSleep env s1) as [[e|] s2|p s2|s2]; cbn [stateOf] in *.
    + exists (n1 ++ n2). rewrite Ht2, Ht1, app_assoc.
      split; [done|]. rewrite !Forall_app. done.
    + destruct (IH (add64 idx 1) s2) as (n3 & Ht3 & Hw3 & Hp3).
      rewrite Ho2, Ho1 in Hw3.
      exists (n1 ++ n2 ++ n3). rewrite Ht3, Ht2, Ht1, !app_assoc.
      split; [done|]. rewrite !Forall_app. split; [done|].
      intros Hi Hf. destruct fuel as [|fuel]; [done|].
      apply Hp3; unfold add64; rewrite wrap64_id;
        unfold inInt64, MinInt64, MaxInt64; lia.
    + exists (n1 ++ n2). rewrite Ht2, Ht1, app_assoc.
      split; [done|]. rewrite !Forall_app. split; [done|].
      intros _ _ p' s' [= <- _]. by rewrite Ho2.
    + done.
  - exists n1. do 2 (split; [done|]).
    intros Hi _ p' s' [= <- _]. destruct Ho1 as [[_ ?]|[-> _]]; [lia|done].
  - done.
Qed.


(** When [NewSession] fails, the loop returns its error in the state the
    failed call left: the agent is the same, connection included, and the
    failed call is the last event of the trace. *)
Lemma standardLoop_session_open_failure fuel idx s c n cmd :
  signaledAt env (clock s) = false ->
  ttlReached (self s) (clock s) = false ->
  getCommand (self s) idx = Value cmd ->
  Connection (self s) = Some c ->
  failure (reply env (tick s)) = Some n ->
  standardLoop env (S fuel) idx s =
    Done (Some (LibraryError n))
         (mkState (self s) (clock s + Z.of_nat (elapsed (reply env (tick s))))
                  (S (tick s))
                  (trace s ++ [(clock s, Call (NewSession c) (Some n))])).
Proof.
  intros Hsig Httl Hcmd Hc Hfail. rewrite standardLoop_S.
  unfold standardCycle. run. rewrite Hsig, Httl, Hcmd. run.
  rewrite Hc. run. rewrite Hfail. by run.
Qed.

(** C5. The standard loop and the cancellation token.  If the token is
    signaled when a cycle begins, the loop returns [nil] at once and only
    writes its log line.  If a cycle has run its command and the token is
    signaled no later than the end of the wait that follows (before the
    wait, during it, or at the very instant its timer fires), the loop
    returns [nil] and makes no library call after the command of that
    cycle. *)
Theorem C5_cancellation_stops_standard_loop (fuel : nat) (idx : Z) (s : State) :
  (signaledAt env (clock s) = true ->
     standardLoop env (S fuel) idx s =
       Done None (emit (Log LvlInfo MsgContextCancelled) s)) /\
  (forall s1 d c,
     standardCycle env idx s = Done Continue s1 ->
     getSleepDuration (self s1) = Value d ->
     cancelAt env = Some c -> c <= clock s1 + Z.max 0 d ->
     exists s' new,
       standardLoop env (S (S fuel)) idx s = Done None s' /\
       appended s1 s' new /\ Forall noCall new).
Proof.
  assert (Htop : forall fuel' idx' s0,
             signaledAt env (clock s0) = true ->
             standardLoop env (S fuel') idx' s0 =
               Done None (emit (Log LvlInfo MsgContextCancelled) s0)).
  { intros fuel' idx' s0 Hsig. rewrite standardLoop_S.
    unfold standardCycle. run. rewrite Hsig. by run. }
  split; [apply Htop|].
  - intros s1 d c Hcyc Hd Hc Hle.
    rewrite standardLoop_S, Hcyc. unfold cadenceSleep. run.
    rewrite Hd. run. unfold raceTimer. rewrite Hc.
    destruct (Z.ltb_spec (Z.max c (clock s1)) (clock s1 + Z.max 0 d)); run.
    { do 2 eexists. split; [done|]. unfold appended. run.
      split; [done|]. by events. }
    destruct (Z.ltb_spec (clock s1 + Z.max 0 d) (Z.max c (clock s1)));
      [lia|].
    destruct (timerFirst env (tick s1)); run.
    + rewrite Htop.
      * do 2 eexists. split; [done|]. unfold appended. run.
        split; [by rewrite <- app_assoc|]. by events.
      * unfold signaledAt. rewrite Hc. run. lia.
    + do 2 eexists. split; [done|]. unfold appended. run.
      split; [done|]. by events.
Qed.

End StandardFacts.

(** * The interactive loop *)

Section TTYFacts.

Variable env : Env.

Lemma ttyCycle_sound sess idx s :
  exists new,
    trace (stateOf (ttyCycle env sess idx s)) = trace s ++ new /\
    Forall (fun e => forall k d w, e.2 <> Wait k d w) new /\
    match ttyCycle env sess idx s with
    | Done Continue s' => self s' = self s
    | Done (Return _) _ => True
    | Panicked p _ => p = IndexOutOfRange /\ idx < 0
    | OutOfFuel _ => False
    end.
Proof.
  unfold ttyCycle. run.
  destruct (signaledAt env (clock s)) eqn:Hsig; run.
  { eexists. split; [done|]. split; [events|done]. }
  destruct (ttlReached (self s) (clock s)); run.
  { eexists. split; [done|]. split; [events|done]. }
  destruct (getCommand (self s) idx) as [command|p] eqn:Hcmd; run.
  2:{ exists []. rewrite app_nil_r. split; [done|]. split; [done|].
      destruct (Z.lt_ge_cases idx 0) as [?|Hge].
      - split; [|done]. unfold getCommand, index in Hcmd.
        repeat case_match; congruence.
      - destruct (getCommand_value (self s) idx Hge). congruence. }
  match goal with |- context [failure ?r] => destruct (failure r) end; run.
  all: eexists; split; [by rewrite <- !app_assoc|]; split; [events|done].
Qed.

Lemma ttySleep_sound s :
  exists new,
    trace (stateOf (ttySleep env s)) = trace s ++ new /\
    Forall (cadenceWaitIs (self s)) new /\
    match ttySleep env s with
    | Done _ s' => self s' = self s
    | Panicked p _ => p = DivideByZero
    | OutOfFuel _ => False
    end.
Proof.
  unfold ttySleep. run.
  destruct (getSleepDuration (self s)) as [d|p] eqn:Hd; run.
  - rewrite Hd. run.
    match goal with |- context [raceTimer ?e ?t ?k ?x] =>
      destruct (raceTimer e t k x) as [[|] t'] end; run.
    all: eexists; split; [by rewrite <- !app_assoc|]; split; [|done].
    all: apply Forall_cons_2; [by intros ? ?|].
    all: apply Forall_cons_2; [|apply Forall_nil_2].
    all: intros d' w' [= <- _]; done.
  - exists []. rewrite app_nil_r. do 2 (split; [done|]).
    unfold getSleepDuration, div64 in Hd. repeat case_match; congruence.
Qed.

Lemma ttyLoop_S fuel sess idx s :
  ttyLoop env (S fuel) sess idx s =
    match ttyCycle env sess idx s with
    | Done (Return e) s1 => Done e s1
    | Done Continue s1 =>
        match ttySleep env s1 with
        | Done (Return e) s2 => Done e s2
        | Done Continue s2 => ttyLoop env fuel sess (add64 idx 1) s2
        | Panicked p s2 => Panicked p s2
        | OutOfFuel s2 => OutOfFuel s2
        end
    | Panicked p s1 => Panicked p s1
    | OutOfFuel s1 => OutOfFuel s1
    end.
Proof.
  cbn [ttyLoop]. unfold bind.
  destruct (ttyCycle env sess idx s) as [[e|] s1|p s1|s1]; try done.
  destruct (ttySleep env s1) as [[e|] s2|p s2|s2]; done.
Qed.

Lemma ttyLoop_sound fuel sess idx s :
  exists new,
    trace (stateOf (ttyLoop env fuel sess idx s)) = trace s ++ new /\
    Forall (cadenceWaitIs (self s)) new /\
    (0 <= idx -> idx + Z.of_nat fuel <= 2 ^ 63 ->
     forall p s', ttyLoop env fuel sess idx s = Panicked p s' ->
                  p <> IndexOutOfRange).
Proof.
  revert idx s. induction fuel as [|fuel IH]; intros idx s.
  { exists []. rewrite app_nil_r. do 2 (split; [done|]). done. }
  rewrite ttyLoop_S.
  destruct (ttyCycle_sound sess idx s) as (n1 & Ht1 & Hw1 & Ho1).
  apply no_wait_cadenceWaitIs with (a := self s) in Hw1.
  destruct (ttyCycle env sess idx s) as [[e|] s1|p s1|s1]; cbn [stateOf] in *.
  - exists n1. do 2 (split; [done|]). done.
  - destruct (ttySleep_sound s1) as (n2 & Ht2 & Hw2 & Ho2).
    rewrite Ho1 in Hw2.
    destruct (ttySleep env s1) as [[e|] s2|p s2|s2]; cbn [stateOf] in *.
    + exists (n1 ++ n2). rewrite Ht2, Ht1, app_assoc.
      split; [done|]. rewrite !Forall_app. done.
    + destruct (IH (add64 idx 1) s2) as (n3 & Ht3 & Hw3 & Hp3).
      rewrite Ho2, Ho1 in Hw3.
      exists (n1 ++ n2 ++ n3). rewrite Ht3, Ht2, Ht1, !app_assoc.
      split; [done|]. rewrite !Forall_app. split; [done|].
      intros Hi Hf. destruct fuel as [|fuel]; [done|].
      apply Hp3; unfold add64; rewrite wrap64_id;
        unfold inInt64, MinInt64, MaxInt64; lia.
    + exists (n1 ++ n2). rewrite Ht2, Ht1, app_assoc.
      split; [done|]. rewrite !Forall_app. split; [done|].
      intros _ _ p' s' [= <- _]. by rewrite Ho2.
    + done.
  - exists n1. do 2 (split; [done|]).
    intros Hi _ p' s' [= <- _]. destruct Ho1 as [_ ?]. lia.
  - done.
Qed.


Ltac closing :=
  match goal with
  | |- context [Close env ?st] =>
      let sc := fresh "sc" in
      let nc := fresh "nc" in
      let Hcl := fresh "Hcl" in
      let Htc := fresh "Htc" in
      let Hfc := fresh "Hfc" in
      destruct (Close_sound env st) as (sc & nc & Hcl & Htc & _ & Hfc);
      unfold runSound; rewrite Hcl; run;
      exists nc; split; [exact Htc|];
      split; [|done];
      eapply Forall_impl; [exact Hfc|];
      intros ? Hnw d' w' Hw'; by destruct (Hnw Cadence d' w')
  end.

Lemma runSound_prefix s s1 fuel o pre :
  trace s1 = trace s ++ pre -> self s1 = self s ->
  Forall (cadenceWaitIs (self s)) pre ->
  runSound s1 fuel o -> runSound s fuel o.
Proof.
  intros Ht Hs Hp (new & Hn & Hf & Hi). exists (pre ++ new).
  rewrite Hn, Ht, app_assoc. split; [done|].
  rewrite Forall_app. rewrite Hs in Hf. done.
Qed.

Lemma ttySetup_sound fuel sess s :
  runSound s fuel (ttySetup env fuel sess s).
Proof.
  unfold ttySetup. run.
  match goal with |- context [failure ?r] => destruct (failure r) end; run.
  { match goal with |- context [Close env ?st] =>
      eapply (runSound_prefix s st);
        [by rewrite <- ?app_assoc|done|by events|] end.
    closing. }
  match goal with |- context [failure ?r] => destruct (failure r) end; run.
  { match goal with |- context [Close env ?st] =>
      eapply (runSound_prefix s st);
        [by rewrite <- ?app_assoc|done|by events|] end.
    closing. }
  match goal with |- context [failure ?r] => destruct (failure r) end; run.
  { match goal with |- context [Close env ?st] =>
      eapply (runSound_prefix s st);
        [by rewrite <- ?app_assoc|done|by events|] end.
    closing. }
  match goal with |- context [failure ?r] => destruct (failure r) end; run.
  { match goal with |- context [Close env ?st] =>
      eapply (runSound_prefix s st);
        [by rewrite <- ?app_assoc|done|by events|] end.
    closing. }
  match goal with |- context [failure ?r] => destruct (failure r) end; run.
  { match goal with |- context [Close env ?st] =>
      eapply (runSound_prefix s st);
        [by rewrite <- ?app_assoc|done|by events|] end.
    closing. }
  match goal with |- context [raceTimer ?e ?t ?k ?x] =>
    destruct (raceTimer e t k x) as [[|] t'] end; run.
  - match goal with |- context [ttyLoop env fuel sess 0 ?st] =>
      eapply (runSound_prefix s st);
        [by rewrite <- ?app_assoc|done|by events|] end.
    match goal with |- context [ttyLoop env fuel sess 0 ?s1] =>
      destruct (ttyLoop_sound fuel sess 0 s1) as (new & Ht & Hf & Hp) end.
    exists new. do 2 (split; [done|]). intros Hfuel. apply Hp; lia.
  - eexists. split; [by rewrite <- !app_assoc|]. split; [events|done].
Qed.


Lemma RunTTYProgram_sound fuel s :
  runSound s fuel (RunTTYProgram env fuel s).
Proof.
  unfold RunTTYProgram. run.
  destruct (Connection (self s)) as [c|]; run.
  2:{ exists []. rewrite app_nil_r. done. }
  destruct (failure (reply env (tick s))); run.
  { eexists. split; [done|]. split; [events|done]. }
  unfold defer.
  match goal with |- context [ttySetup env fuel ?ss ?st] =>
    eapply (runSound_prefix s st); [done|done|by events|];
    destruct (ttySetup_sound fuel ss st) as (new & Ht & Hf & Hp);
    destruct (ttySetup env fuel ss st) as [e s2|p s2|s2]
  end; run; cbn [stateOf] in Ht.
  - eexists. split; [by rewrite Ht, <- app_assoc|].
    split; [|done]. rewrite Forall_app. split; [done|events].
  - eexists. split; [by rewrite Ht, <- app_assoc|].
    split; [rewrite Forall_app; split; [done|events]|].
    intros Hfuel p' s' [= <- _]. by eapply Hp.
  - eexists. split; [exact Ht|]. split; [done|]. done.
Qed.

Lemma RunStandardProgram_sound fuel s :
  runSound s fuel (RunStandardProgram env fuel s).
Proof.
  unfold RunStandardProgram. run.
  destruct (Connection (self s)) as [c|]; run.
  2:{ exists []. rewrite app_nil_r. done. }
  destruct (standardLoop_sound env fuel 0 s) as (new & Ht & Hf & Hp).
  exists new. do 2 (split; [done|]). intros Hfuel. apply Hp; lia.
Qed.

Lemma RunProgram_sound fuel s :
  runSound s fuel (RunProgram env fuel s).
Proof.
  unfold RunProgram. run. destruct (UseTTY (self s)).
  - apply RunTTYProgram_sound.
  - apply RunStandardProgram_sound.
Qed.

(** What the code does for a cadence (commands per minute) above zero: the
    wait between two cycles is the whole number of seconds [60 / cadence] of
    Go's integer division, the largest q with cadence * q <= 60.  Cadence
    times the wait is a minute when the cadence divides 60.  Every cadence
    wait of a run, in standard and in interactive mode, lasts that long. *)
Theorem cadence_wait_is_truncated_quotient (fuel : nat) (s : State) :
  0 < CommandRate (self s) ->
  let q := 60 / CommandRate (self s) in
  getSleepDuration (self s) = Value (q * Second) /\
  CommandRate (self s) * q <= 60 < CommandRate (self s) * (q + 1) /\
  ((CommandRate (self s) | 60) ->
     CommandRate (self s) * (q * Second) = 60 * Second) /\
  exists new,
    appended s (stateOf (RunProgram env fuel s)) new /\
    Forall (fun e => forall d w, e.2 = Wait Cadence d w -> d = q * Second) new.
Proof.
  intros Hr q.
  destruct (getSleepDuration_positive_rate (self s) Hr) as [Hd Hq].
  fold q in Hd, Hq. split; [done|]. split.
  { subst q. split.
    - apply Z.mul_div_le. lia.
    - rewrite Z.mul_add_distr_l, Z.mul_1_r.
      pose proof (Z.mod_pos_bound 60 (CommandRate (self s)) Hr).
      pose proof (Z.div_mod 60 (CommandRate (self s)) ltac:(lia)). lia. }
  split.
  { intros [k Hk]. subst q. rewrite Hk, Z.div_mul by lia. lia. }
  destruct (RunProgram_sound fuel s) as (new & Ht & Hf & _).
  exists new. split; [done|].
  eapply Forall_impl; [exact Hf|]. intros e He d w Hw.
  specialize (He d w Hw). rewrite Hd in He. by injection He.
Qed.

(** C10. With a non-empty script [getCommand] reads the script inside its
    bounds at every index >= 0, while an index below zero passes the only
    check there is and panics.  Both loops start the index at 0 and add 1
    per cycle, so in either mode no run panics on an index within its
    first 2^63 cycles, the range in which the 64-bit index has not wrapped
    around. *)
Theorem C10_index_in_bounds (fuel : nat) (s : State) (idx : Z) :
  (CommandScript (self s) <> [] ->
     (0 <= idx -> exists c, getCommand (self s) idx = Value c) /\
     (idx < 0 -> getCommand (self s) idx = Panics IndexOutOfRange)) /\
  (Z.of_nat fuel <= 2 ^ 63 ->
     forall p s',
       (RunStandardProgram env fuel s = Panicked p s' -> p <> IndexOutOfRange) /\
       (RunTTYProgram env fuel s = Panicked p s' -> p <> IndexOutOfRange) /\
       (RunProgram env fuel s = Panicked p s' -> p <> IndexOutOfRange)).
Proof.
  split.
  - intros Hne. split; [apply getCommand_value|].
    intros Hneg. unfold getCommand, index, len.
    destruct (CommandScript (self s)) as [|c0 l]; [done|].
    cbn [length]. destruct (Z.ltb_spec 0 (Z.of_nat (S (length l)))); [|lia].
    destruct (Z.leb_spec (Z.of_nat (S (length l))) idx); [lia|].
    by destruct (Z.ltb_spec idx 0); [|lia].
  - intros Hfuel p s'.
    destruct (RunStandardProgram_sound fuel s) as (_ & _ & _ & H1).
    destruct (RunTTYProgram_sound fuel s) as (_ & _ & _ & H2).
    destruct (RunProgram_sound fuel s) as (_ & _ & _ & H3).
    split; [|split]; intros Hp;
      [eapply H1 | eapply H2 | eapply H3]; done.
Qed.

End TTYFacts.

(** * Failures inside a standard cycle *)

(** C4. The claim: when opening the session or running the command fails,
    the standard loop releases the connection and returns the failure.
    Here [NewSession] fails in the first cycle.  [RunStandardProgram]
    returns that error and stops, but it made no call to close the
    connection and the agent still holds it: the branch for a failed
    [NewSession] returns without the [a.Close()] that the two branches after
    it have. *)
Theorem C4_session_open_failure_keeps_connection :
  exists s',
    RunStandardProgram envAlwaysFailing 1 (initial agentInSession)
      = Done (Some (LibraryError 0)) s' /\
    trace s' = [(0, Call (NewSession 7%nat) (Some 0%nat))] /\
    Connection (self s') = Some 7%nat.
Proof.
  eexists. split; [vm_compute; reflexivity|]. split; reflexivity.
Qed.

(** The two branches beside it: when the session opens and [RequestPty]
    fails, or when [RequestPty] succeeds and the command fails, the session
    and the connection are closed and the agent holds no connection. *)
Lemma standard_failure_after_open_releases :
  (exists s',
     RunStandardProgram (envFailingFrom 1) 1 (initial agentInSession)
       = Done (Some (LibraryError 1)) s' /\
     Connection (self s') = None /\
     last (trace s') = Some (3, Call (ClientClose 7%nat) (Some 3%nat))) /\
  (exists s',
     RunStandardProgram (envFailingFrom 2) 1 (initial agentInSession)
       = Done (Some (LibraryError 2)) s' /\
     Connection (self s') = None /\
     last (trace s') = Some (4, Call (ClientClose 7%nat) (Some 4%nat))).
Proof.
  split; eexists; (split; [vm_compute; reflexivity|]); split; reflexivity.
Qed.

(** * Concrete instances *)

(** C6. The claim: for every cadence above zero the wait between two
    cycles is 60 / cadence seconds.  The code divides the integers first and
    scales to nanoseconds afterwards, so the quotient is truncated to whole
    seconds.  At 7 commands per minute the wait is 8 seconds, more than half
    a second short of 60 / 7 seconds.  At 61 commands per minute, and at
    every cadence above 60, the wait is zero: the loop does not pause at
    all, where 60 / 61 seconds is more than nine tenths of a second. *)
Theorem C6_wait_truncated_to_whole_seconds :
  getSleepDuration (agentAtRate 7) = Value (8 * Second) /\
  7 * (8 * Second + Second / 2) < 60 * Second /\
  getSleepDuration (agentAtRate 61) = Value 0 /\
  61 * (0 + 9 * Second / 10) < 60 * Second.
Proof. repeat split. Qed.

Lemma C3_getCommand_witness :
  (exists s, ["ls"; "pwd"]%string !! Z.to_nat 1 = Some s /\
             getCommand (agentWith 0 ["ls"; "pwd"]%string) 1 = Value s) /\
  getCommand (agentWith 0 ["ls"; "pwd"]%string) 2 = Value ""%string /\
  getCommand (agentWith 0 []) 5 = Value defaultCommand.
Proof.
  split; [|split].
  - apply (proj1 (C3_getCommand (agentWith 0 ["ls"; "pwd"]%string) 1)).
    + reflexivity.
    + cbv [agentWith CommandScript len length]. lia.
  - apply (proj1 (C3_getCommand (agentWith 0 ["ls"; "pwd"]%string) 2)).
    + reflexivity.
    + cbv [agentWith CommandScript len length]. lia.
  - apply (proj2 (C3_getCommand (agentWith 0 []) 5)). reflexivity.
Defined.

Lemma C7_run_without_connection_witness :
  RunStandardProgram envAlwaysFailing 3 (initial (agentWith 0 []))
    = Done (Some ConnectionIsNil) (initial (agentWith 0 [])) /\
  RunTTYProgram envAlwaysFailing 3 (initial (agentWith 0 []))
    = Done (Some ConnectionIsNil) (initial (agentWith 0 [])) /\
  RunProgram envAlwaysFailing 3 (initial (agentWith 0 []))
    = Done (Some ConnectionIsNil) (initial (agentWith 0 [])).
Proof.
  apply (C7_run_without_connection envAlwaysFailing 3 (initial (agentWith 0 []))).
  reflexivity.
Defined.

Lemma C9_Close_idempotent_witness :
  Close envAlwaysFailing (initial (agentWith 0 []))
    = Done tt (emit (Log LvlDebug MsgClosing) (initial (agentWith 0 []))).
Proof.
  apply (proj1 (C9_Close_idempotent envAlwaysFailing (initial (agentWith 0 [])))).
  reflexivity.
Defined.

Lemma C8_Connect_mutates_only_on_success_witness :
  (exists res s',
     Connect envAlwaysFailing (initial (agentWith 2 [])) = Done res s' /\
     res <> None /\
     Connection (self s') = Connection (self (initial (agentWith 2 []))) /\
     ConnectionStart (self s')
       = ConnectionStart (self (initial (agentWith 2 [])))) /\
  (exists s',
     Connect (envSucceedingFrom 2) (initial (agentWith 2 [])) = Done None s' /\
     connectedBy (envSucceedingFrom 2) (initial (agentWith 2 [])) s' /\
     Connection (self s') <> None /\
     ConnectionStart (self s') = clock s').
Proof.
  split.
  - destruct (C8_Connect_mutates_only_on_success envAlwaysFailing
                (initial (agentWith 2 [])))
      as (res & s' & new & Hrun & _ & _ & Hframe & _).
    exists res, s'. split; [exact Hrun|].
    assert (Hres : res <> None).
    { vm_compute in Hrun. injection Hrun as <- _. discriminate. }
    split; [exact Hres|]. exact (Hframe Hres).
  - destruct (C8_Connect_mutates_only_on_success (envSucceedingFrom 2)
                (initial (agentWith 2 [])))
      as (res & s' & new & Hrun & Happ & _ & _ & Hsucc & _).
    assert (Hdial : dialSucceeded new = true).
    { vm_compute in Hrun. injection Hrun as _ <-.
      unfold appended in Happ. cbn in Happ. by subst new. }
    destruct (Hsucc Hdial) as (-> & Hby & Hconn & Hstart).
    exists s'. split; [exact Hrun|]. split; [exact Hby|].
    split; [exact Hconn | exact Hstart].
Defined.

Lemma cadence_wait_at_six_per_minute :
  let s := initial (connected 7%nat (agentAtRate 6)) in
  getSleepDuration (self s) = Value (10 * Second) /\
  6 * 10 <= 60 < 6 * (10 + 1) /\
  ((6 | 60) -> 6 * (10 * Second) = 60 * Second) /\
  exists new,
    appended s (stateOf (RunProgram (envCancelledAt 25000000000) 5 s)) new /\
    Forall (fun e => forall d w, e.2 = Wait Cadence d w -> d = 10 * Second) new.
Proof.
  apply (cadence_wait_is_truncated_quotient (envCancelledAt 25000000000) 5
           (initial (connected 7%nat (agentAtRate 6)))).
  reflexivity.
Defined.

Lemma C5_cancellation_stops_standard_loop_witness :
  let s := mkState agentInSession 50 0 [] in
  standardLoop (envCancelledAt 10) 1 0 s
    = Done None (emit (Log LvlInfo MsgContextCancelled) s) /\
  exists s1 s' new,
    standardCycle (envCancelledAt 10) 0 (initial agentInSession)
      = Done Continue s1 /\
    standardLoop (envCancelledAt 10) 2 0 (initial agentInSession)
      = Done None s' /\
    appended s1 s' new /\ Forall noCall new.
Proof.
  split.
  - apply (proj1 (C5_cancellation_stops_standard_loop (envCancelledAt 10)
                    0 0 (mkState agentInSession 50 0 []))).
    reflexivity.
  - eexists.
    destruct (proj2 (C5_cancellation_stops_standard_loop
                       (envCancelledAt 10) 0 0 (initial agentInSession))
                _ (10 * Second) 10 eq_refl eq_refl eq_refl)
      as (s' & new & Hrun & Happ & Hcalls).
    + vm_compute. discriminate.
    + exists s', new. split; [reflexivity|]. split; [exact Hrun|].
      split; [exact Happ | exact Hcalls].
Defined.

Lemma C10_index_in_bounds_witness :
  let s := initial (connected 7%nat (agentWith 0 ["ls"]%string)) in
  (exists c, getCommand (self s) 3 = Value c) /\
  getCommand (self s) (-1) = Panics IndexOutOfRange /\
  forall p s',
    (RunStandardProgram (envCancelledAt 25000000000) 5 s = Panicked p s' ->
     p <> IndexOutOfRange) /\
    (RunTTYProgram (envCancelledAt 25000000000) 5 s = Panicked p s' ->
     p <> IndexOutOfRange) /\
    (RunProgram (envCancelledAt 25000000000) 5 s = Panicked p s' ->
     p <> IndexOutOfRange).
Proof.
  pose proof (C10_index_in_bounds (envCancelledAt 25000000000) 5
                (initial (connected 7%nat (agentWith 0 ["ls"]%string)))) as H.
  split; [|split].
  - apply (proj1 (H 3)); [discriminate | lia].
  - apply (proj1 (H (-1))); [discriminate | lia].
  - apply (proj2 (H 0)). vm_compute. discriminate.
Defined.

(** * [parseScript] *)

Lemma stringsSplit_cons s sep :
  exists l ls, stringsSplit s sep = l :: ls.
Proof.
  destruct s as [|c rest]; cbn [stringsSplit]; [by eexists _, _|].
  destruct (Ascii.eqb c sep); [by eexists _, _|].
  destruct (stringsSplit rest sep); by eexists _, _.
Qed.

Lemma joined_more l l' ls sep :
  joined (l :: l' :: ls) sep = (l ++ String sep (joined (l' :: ls) sep))%string.
Proof. reflexivity. Qed.

Lemma joined_stringsSplit s sep : joined (stringsSplit s sep) sep = s.
Proof.
  induction s as [|c rest IH]; [done|]. cbn [stringsSplit].
  destruct (stringsSplit_cons rest sep) as (l & ls & Hs).
  rewrite Hs in *.
  destruct (Ascii.eqb c sep) eqn:He.
  - apply Ascii.eqb_eq in He. subst c.
    rewrite joined_more, IH. reflexivity.
  - destruct ls as [|l' ls].
    + cbn [joined] in *. by subst.
    + rewrite joined_more in *. rewrite <- IH. reflexivity.
Qed.

Lemma stringsSplit_no_sep s sep :
  Forall (fun l => hasByte sep l = false) (stringsSplit s sep).
Proof.
  induction s as [|c rest IH]; cbn [stringsSplit]; [by repeat constructor|].
  destruct (Ascii.eqb_spec c sep) as [->|Hne]; [by constructor|].
  destruct (stringsSplit rest sep) as [|l ls].
  - repeat constructor. cbn. by destruct (Ascii.eqb_spec c sep).
  - apply Forall_cons in IH as [Hl Hls]. constructor; [|done].
    cbn. rewrite Hl. by destruct (Ascii.eqb_spec c sep).
Qed.

(** One line exactly when the separator does not occur. *)
Lemma stringsSplit_single s sep :
  length (stringsSplit s sep) = 1%nat <-> hasByte sep s = false.
Proof.
  induction s as [|c rest IH]; cbn [stringsSplit hasByte]; [done|].
  destruct (Ascii.eqb_spec c sep) as [->|Hne]; cbn [orb].
  - destruct (stringsSplit_cons rest sep) as (l & ls & ->). done.
  - rewrite <- IH.
    destruct (stringsSplit_cons rest sep) as (l & ls & ->). done.
Qed.

Lemma stringsSplit_no_sep_id s sep :
  hasByte sep s = false -> stringsSplit s sep = [s].
Proof.
  induction s as [|c rest IH]; cbn [stringsSplit hasByte]; [done|].
  destruct (Ascii.eqb_spec c sep) as [->|Hne]; cbn [orb]; [done|].
  intros H. by rewrite IH.
Qed.

Lemma append_String c s t :
  String.append (String c s) t = String c (String.append s t).
Proof. reflexivity. Qed.

Lemma hasByte_app c s t :
  hasByte c (String.append s t) = hasByte c s || hasByte c t.
Proof.
  induction s as [|c' s IH]; [done|].
  rewrite append_String. cbn [hasByte]. rewrite IH. by rewrite orb_assoc.
Qed.

Lemma stringsSplit_other_sep s sep c :
  hasByte c s = false ->
  Forall (fun l => hasByte c l = false) (stringsSplit s sep).
Proof.
  induction s as [|c' rest IH]; cbn [stringsSplit hasByte];
    [by repeat constructor|].
  intros [Hc Hrest]%orb_false_iff. specialize (IH Hrest).
  destruct (Ascii.eqb c' sep); [by constructor|].
  destruct (stringsSplit rest sep) as [|l ls].
  - repeat constructor. cbn. by rewrite Hc.
  - apply Forall_cons in IH as [Hl Hls]. constructor; [|done].
    cbn. by rewrite Hc, Hl.
Qed.

Lemma stringsSplit_trailing body sep :
  stringsSplit (String.append body (String sep EmptyString)) sep =
    stringsSplit body sep ++ [EmptyString].
Proof.
  induction body as [|c rest IH].
  - change (String.append "" (String sep "")) with (String sep "").
    cbn [stringsSplit]. by rewrite Ascii.eqb_refl.
  - rewrite append_String. cbn [stringsSplit]. rewrite IH.
    destruct (Ascii.eqb c sep); [done|].
    by destruct (stringsSplit_cons rest sep) as (l & ls & ->).
Qed.

Lemma parseScript_lines fs script lines :
  parseScript fs script = inl lines ->
  exists data,
    scriptText fs script data /\
    lines = if hasByte LF data then stringsSplit data LF
            else stringsSplit data semicolon.
Proof.
  unfold parseScript, scriptText.
  destruct (osStat fs script).
  - destruct (osReadFile fs script) as [data|e]; [|done].
    intros [= <-]. exists data. split; [done|].
    unfold len. destruct (hasByte LF data) eqn:Hh.
    + destruct (Z.eqb_spec (Z.of_nat (length (stringsSplit data LF))) 1) as [He|]; [|done].
      assert (He' : length (stringsSplit data LF) = 1%nat) by lia.
      apply stringsSplit_single in He'. congruence.
    + apply stringsSplit_single in Hh. by rewrite Hh.
  - intros [= <-]. exists script. split; [done|].
    unfold len. destruct (hasByte LF script) eqn:Hh.
    + destruct (Z.eqb_spec (Z.of_nat (length (stringsSplit script LF))) 1) as [He|]; [|done].
      assert (He' : length (stringsSplit script LF) = 1%nat) by lia.
      apply stringsSplit_single in He'. congruence.
    + apply stringsSplit_single in Hh. by rewrite Hh.
Qed.

(** X1. A script that [parseScript] accepts is never empty, not even for an
    empty file or an empty argument, so an agent given its lines never falls
    back to the default command: at every index >= 0 [getCommand] is the
    line at that index, or the empty string past the end. *)
Theorem parseScript_never_empty (fs : FileSystem) (script : string)
    (lines : list string) (a : Agent) (idx : Z) :
  parseScript fs script = inl lines ->
  CommandScript a = lines -> 0 <= idx ->
  lines <> [] /\
  getCommand a idx = Value (default EmptyString (lines !! Z.to_nat idx)).
Proof.
  intros (data & _ & Hl)%parseScript_lines Ha Hidx.
  assert (Hne : lines <> []).
  { destruct (stringsSplit_cons data LF) as (? & ? & H1).
    destruct (stringsSplit_cons data semicolon) as (? & ? & H2).
    rewrite H1, H2 in Hl. by destruct (hasByte LF data); subst. }
  split; [done|]. unfold getCommand. rewrite Ha.
  destruct (Z.ltb_spec 0 (len lines)) as [Hpos|Hz].
  2:{ unfold len in Hz. destruct lines; [done|cbn in Hz; lia]. }
  destruct (Z.leb_spec (len lines) idx) as [Hge|Hlt].
  - unfold len in Hge. rewrite lookup_ge_None_2 by lia. done.
  - destruct (index_in_bounds lines idx) as (x & Hx & Hi); [lia|].
    by rewrite Hx, Hi.
Qed.

Lemma parseScript_never_empty_witness :
  ["ls"; "pwd"]%string <> [] /\
  getCommand (agentWith 0 ["ls"; "pwd"]%string) 1 =
    Value (default EmptyString (["ls"; "pwd"]%string !! Z.to_nat 1)).
Proof.
  apply (parseScript_never_empty noFile "ls;pwd" ["ls"; "pwd"]%string
           (agentWith 0 ["ls"; "pwd"]%string) 1).
  - reflexivity.
  - reflexivity.
  - lia.
Defined.

(** X2. The lines [parseScript] returns, joined again, are the text it
    read (the file at the path when [os.Stat] finds one, the argument
    otherwise): joined with newlines when the text has a newline, with
    semicolons when it has none.  No line contains a newline, and no line
    contains the separator used. *)
Theorem parseScript_round_trip (fs : FileSystem) (script : string)
    (lines : list string) :
  parseScript fs script = inl lines ->
  exists data sep,
    scriptText fs script data /\
    sep = (if hasByte LF data then LF else semicolon) /\
    joined lines sep = data /\
    Forall (fun l => hasByte sep l = false) lines /\
    Forall (fun l => hasByte LF l = false) lines.
Proof.
  intros (data & Hd & ->)%parseScript_lines.
  exists data, (if hasByte LF data then LF else semicolon).
  split; [done|]. split; [done|].
  destruct (hasByte LF data) eqn:Hh.
  - split; [apply joined_stringsSplit|].
    split; apply stringsSplit_no_sep.
  - split; [apply joined_stringsSplit|].
    split; [apply stringsSplit_no_sep|by apply stringsSplit_other_sep].
Qed.

Lemma parseScript_round_trip_witness :
  exists data sep,
    scriptText (fileWith "cmds.txt" "ls;pwd") "cmds.txt" data /\
    sep = (if hasByte LF data then LF else semicolon) /\
    joined ["ls"; "pwd"]%string sep = data /\
    Forall (fun l => hasByte sep l = false) ["ls"; "pwd"]%string /\
    Forall (fun l => hasByte LF l = false) ["ls"; "pwd"]%string.
Proof.
  apply (parseScript_round_trip (fileWith "cmds.txt" "ls;pwd") "cmds.txt").
  reflexivity.
Defined.

(** X3. Semicolons separate commands only in a text without any newline.
    When the text ends with a newline, as a file written by an editor does,
    the lines are those of the text before that newline, split at newlines
    alone, followed by one more command, the empty string; a line such as
    "ls;pwd" stays one command. *)
Theorem parseScript_trailing_newline (fs : FileSystem) (script body : string)
    (lines : list string) :
  parseScript fs script = inl lines ->
  scriptText fs script (String.append body (String LF EmptyString)) ->
  lines = stringsSplit body LF ++ [EmptyString] /\
  last lines = Some EmptyString /\
  (hasByte LF body = false -> lines = [body; EmptyString]).
Proof.
  intros (data & Hd & ->)%parseScript_lines Hb.
  assert (data = String.append body (String LF "")) as ->.
  { unfold scriptText in *. destruct (osStat fs script); congruence. }
  assert (Hh : hasByte LF (String.append body (String LF "")) = true).
  { rewrite hasByte_app. cbn. by rewrite orb_true_r. }
  rewrite Hh, stringsSplit_trailing. split; [done|].
  split; [by rewrite last_snoc|].
  intros Hnb. by rewrite stringsSplit_no_sep_id.
Qed.

Lemma parseScript_trailing_newline_witness :
  [ "ls;pwd"%string; EmptyString ] = stringsSplit "ls;pwd" LF ++ [EmptyString] /\
  last [ "ls;pwd"%string; EmptyString ] = Some EmptyString /\
  (hasByte LF "ls;pwd" = false ->
   [ "ls;pwd"%string; EmptyString ] = [ "ls;pwd"%string; EmptyString ]).
Proof.
  apply (parseScript_trailing_newline
           (fileWith "cmds.txt" (String.append "ls;pwd" (String LF EmptyString)))
           "cmds.txt" "ls;pwd").
  - reflexivity.
  - reflexivity.
Defined.

(** * More about [Connect] *)


Section ConnectMore.

Variable env : Env.




(** The retry loop and time: nothing happens before the loop starts, and
    it reports a cancellation only once the context is cancelled. *)
Lemma connectLoop_times fuel maxAttempts attempt lastErr s :
  0 <= attempt -> inInt64 maxAttempts ->
  (Z.to_nat (maxAttempts - attempt) <= fuel)%nat ->
  lastErr <> Some ContextCanceled ->
  exists res s' new,
    connectLoop env fuel maxAttempts attempt lastErr s = Done res s' /\
    trace s' = trace s ++ new /\
    Forall (fun e => clock s <= e.1) new /\
    clock s <= clock s' /\
    (res = Some ContextCanceled ->
       signaledAt env (clock s') = true /\ self s' = self s).
Proof.
  revert attempt lastErr s.
  induction fuel as [|fuel IH]; intros attempt lastErr s Ha Hm Hf Hl.
  { rewrite connectLoop_exit by lia. do 3 eexists. split; [done|]. run.
    split; [done|]. split; [by repeat constructor|]. split; [lia|done]. }
  destruct (Z.le_gt_cases maxAttempts attempt) as [Hge|Hlt].
  { rewrite connectLoop_exit by lia. do 3 eexists. split; [done|]. run.
    split; [done|]. split; [by repeat constructor|]. split; [lia|done]. }
  simpl. destruct (Z.ltb_spec attempt maxAttempts); [|lia].
  assert (Hadd : add64 attempt 1 = attempt + 1).
  { apply wrap64_id. unfold inInt64, MinInt64, MaxInt64 in *. lia. }
  assert (Hsub : sub64 maxAttempts 1 = maxAttempts - 1).
  { apply wrap64_id. unfold inInt64, MinInt64, MaxInt64 in *. lia. }
  rewrite Hadd, Hsub. run.
  destruct (signaledAt env (clock s)) eqn:Hsig; run.
  { do 3 eexists. split; [done|]. split; [by rewrite app_nil_r|].
    split; [constructor|]. split; [lia|done]. }
  destruct (failure (reply env (tick s))) as [e0|] eqn:Hfail; run.
  2:{ do 3 eexists. split; [done|]. run. split; [by rewrite <- !app_assoc|].
      split; [repeat constructor; cbn; lia|]. split; [lia|done]. }
  destruct (Z.ltb_spec attempt (maxAttempts - 1)).
  - rewrite getBackoffDuration_total by lia. run.
    match goal with |- context [raceTimer env ?t ?k ?d] =>
      pose proof (raceTimer_spec env t k d) as (Ht1 & Ht2 & Ht3);
      destruct (raceTimer env t k d) as [[|] t'] end; run; cbn in Ht1, Ht2, Ht3.
    + match goal with |- context [connectLoop _ _ _ _ _ ?s1] =>
        destruct (IH (attempt + 1) (Some (LibraryError e0)) s1)
          as (res & s' & new & Hrun & Htr & Hall & Hclk & Hcan);
          [lia | done | lia | done |] end.
      rewrite Hrun. run in Htr. run in Hall. run in Hclk. run in Hcan.
      do 3 eexists. split; [done|].
      split; [by rewrite Htr, <- !app_assoc|]. split; [|split; [lia|done]].
      repeat (apply Forall_cons_2; [cbn; lia|]).
      eapply Forall_impl; [exact Hall|]. cbn. intros; lia.
    + do 3 eexists. split; [done|]. run. split; [by rewrite <- !app_assoc|].
      split; [repeat constructor; cbn; lia|]. split; [lia|]. intros _. auto.
  - match goal with |- context [connectLoop _ _ _ _ _ ?s1] =>
      destruct (IH (attempt + 1) (Some (LibraryError e0)) s1)
        as (res & s' & new & Hrun & Htr & Hall & Hclk & Hcan);
        [lia | done | lia | done |] end.
    rewrite Hrun. run in Htr. run in Hall. run in Hclk. run in Hcan.
    do 3 eexists. split; [done|].
    split; [by rewrite Htr, <- !app_assoc|]. split; [|split; [lia|done]].
    repeat (apply Forall_cons_2; [cbn; lia|]).
    eapply Forall_impl; [exact Hall|]. cbn. intros; lia.
Qed.


Lemma Connect_times s :
  exists res s' new,
    Connect env s = Done res s' /\ trace s' = trace s ++ new /\
    Forall (fun e => isDial e = true ->
                     0 < ConnectionDelay (self s) ->
                     clock s + Z.max 0 (mul64 (ConnectionDelay (self s)) Second)
                       <= e.1) new /\
    (res = Some ContextCanceled ->
       signaledAt env (clock s') = true /\ self s' = self s).
Proof.
  unfold Connect. run.
  destruct (Connection (self s)) as [c|]; run.
  { do 3 eexists. split; [done|]. split; [by rewrite app_nil_r|].
    split; [constructor|done]. }
  pose proof (wrap64_range (MaxRetries (self s) + 1)) as Hmax.
  fold (add64 (MaxRetries (self s)) 1) in Hmax.
  destruct (Z.ltb_spec 0 (ConnectionDelay (self s))) as [Hd|Hd]; run.
  - match goal with |- context [raceTimer env ?t ?k ?d] =>
      pose proof (raceTimer_spec env t k d) as (Ht1 & Ht2 & Ht3);
      destruct (raceTimer env t k d) as [[|] t'] end; run; cbn in Ht1, Ht2, Ht3.
    + match goal with |- context [connectLoop _ ?f ?m 0 None ?s1] =>
        destruct (connectLoop_times f m 0 None s1)
          as (res & s' & new & Hrun & Htr & Hall & Hclk & Hcan);
          [lia | done | lia | done |] end.
      rewrite Hrun. run in Htr. run in Hall. run in Hcan.
      do 3 eexists. split; [done|].
      split; [by rewrite Htr, <- !app_assoc|]. split; [|done].
      apply Forall_cons_2; [done|].
      eapply Forall_impl; [exact Hall|]. cbn. intros e He _ _.
      rewrite <- (Ht3 eq_refl). done.
    + do 3 eexists. split; [done|]. run. split; [done|].
      split; [by repeat constructor|]. intros _. auto.
  - match goal with |- context [connectLoop _ ?f ?m 0 None ?s1] =>
      destruct (connectLoop_times f m 0 None s1)
        as (res & s' & new & Hrun & Htr & Hall & Hclk & Hcan);
        [lia | done | lia | done |] end.
    rewrite Hrun. do 3 eexists. split; [done|]. split; [done|].
    split; [|done]. eapply Forall_impl; [exact Hall|]. intros; lia.
Qed.

(** X5. The delay before connecting.  For an agent without a connection
    and a [ConnectionDelay] of d seconds, 0 < d <= 9223372036 (so that d
    seconds fit a [time.Duration]): no dial begins earlier than d seconds
    after [Connect] was called; and if the context is cancelled before the
    delay is over, [Connect] returns the cancellation error without any
    dial, having done nothing but wait, and leaves the agent as it was. *)
Theorem Connect_honours_delay (s : State) :
  Connection (self s) = None ->
  0 < ConnectionDelay (self s) <= 9223372036 ->
  (exists res s' new,
     Connect env s = Done res s' /\ appended s s' new /\
     Forall (fun e => isDial e = true ->
                      clock s + ConnectionDelay (self s) * Second <= e.1) new) /\
  (forall c,
     cancelAt env = Some c ->
     c < clock s + ConnectionDelay (self s) * Second ->
     Connect env s =
       Done (Some ContextCanceled)
            (mkState (self s) (Z.max c (clock s)) (S (tick s))
               (trace s ++
                  [(clock s, Wait PreConnect
                               (ConnectionDelay (self s) * Second) CtxDone)]))).
Proof.
  intros Hc Hd.
  assert (Hmul : mul64 (ConnectionDelay (self s)) Second
                 = ConnectionDelay (self s) * Second).
  { apply wrap64_id. unfold inInt64, MinInt64, MaxInt64, Second. lia. }
  split.
  - destruct (Connect_times s) as (res & s' & new & Hrun & Htr & Hall & _).
    exists res, s', new. do 2 (split; [done|]).
    eapply Forall_impl; [exact Hall|]. cbn. intros e He Hdial.
    specialize (He Hdial ltac:(lia)). rewrite Hmul in He.
    unfold Second in *. lia.
  - intros c Hca Hlt. unfold Connect. run. rewrite Hc.
    destruct (Z.ltb_spec 0 (ConnectionDelay (self s))); [|lia].
    run. rewrite Hmul. unfold raceTimer. rewrite Hca.
    destruct (Z.ltb_spec (Z.max c (clock s))
                (clock s + Z.max 0 (ConnectionDelay (self s) * Second)));
      [by run|].
    unfold Second in *. lia.
Qed.

(** X6. [Connect] returns the cancellation error only when the context is
    cancelled by the instant it returns, and it then leaves the agent as it
    was; with a context that is never cancelled it never returns it. *)
Theorem Connect_cancellation_is_genuine (s : State) :
  exists res s',
    Connect env s = Done res s' /\
    (res = Some ContextCanceled ->
       signaledAt env (clock s') = true /\ self s' = self s) /\
    (neverCancelled env -> res <> Some ContextCanceled).
Proof.
  destruct (Connect_times s) as (res & s' & new & Hrun & _ & _ & Hcan).
  exists res, s'. split; [done|]. split; [done|].
  intros Hnever ->. destruct (Hcan eq_refl) as [Hsig _].
  unfold signaledAt in Hsig. by rewrite Hnever in Hsig.
Qed.

End ConnectMore.


Lemma Connect_honours_delay_witness :
  let a := mkAgent "localhost" 22 "sshmob" "secret" "" false None 3 60 0 6 [] 0 in
  (exists res s' new,
     Connect (envCancelledAt 1000000000) (initial a) = Done res s' /\
     appended (initial a) s' new /\
     Forall (fun e => isDial e = true -> 0 + 3 * Second <= e.1) new) /\
  Connect (envCancelledAt 1000000000) (initial a) =
    Done (Some ContextCanceled)
         (mkState a (Z.max 1000000000 0) 1
            ([] ++ [(0, Wait PreConnect (3 * Second) CtxDone)])).
Proof.
  intros a.
  destruct (Connect_honours_delay (envCancelledAt 1000000000) (initial a))
    as [H1 H2].
  - reflexivity.
  - subst a. cbn. lia.
  - split; [exact H1|].
    apply (H2 1000000000); [reflexivity | subst a; cbn; unfold Second; lia].
Defined.

Lemma Connect_cancellation_is_genuine_witness :
  exists res s',
    Connect (envCancelledAt 0) (initial (agentWith 2 [])) = Done res s' /\
    res = Some ContextCanceled /\
    signaledAt (envCancelledAt 0) (clock s') = true /\
    self s' = agentWith 2 [].
Proof.
  destruct (Connect_cancellation_is_genuine (envCancelledAt 0)
              (initial (agentWith 2 []))) as (res & s' & Hrun & Hcan & _).
  exists res, s'. split; [exact Hrun|].
  assert (Hres : res = Some ContextCanceled).
  { vm_compute in Hrun. by injection Hrun as <- _. }
  split; [exact Hres|]. exact (Hcan Hres).
Defined.

(** * Runs of the command loops *)

Lemma sessionFlow_app b tr1 tr2 :
  sessionFlow b (tr1 ++ tr2) =
    match sessionFlow b tr1 with
    | Some b' => sessionFlow b' tr2
    | None => None
    end.
Proof.
  revert b. induction tr1 as [|e tr1 IH]; intros b; [done|].
  cbn [app sessionFlow]. destruct (sessionStep b e); [apply IH|done].
Qed.

Lemma sessionFlow_then b b' tr1 tr2 :
  sessionFlow b tr1 = Some b' ->
  sessionFlow b (tr1 ++ tr2) = sessionFlow b' tr2.
Proof. intros H. by rewrite sessionFlow_app, H. Qed.

Lemma released_app tr1 tr2 : released (tr1 ++ tr2) = released tr1 || released tr2.
Proof. apply existsb_app. Qed.

Lemma commandsIssued_app tr1 tr2 :
  commandsIssued (tr1 ++ tr2) = commandsIssued tr1 ++ commandsIssued tr2.
Proof. apply omap_app. Qed.

Lemma commandsIssued_skip e tr :
  commandIssued e = None -> commandsIssued (e :: tr) = commandsIssued tr.
Proof. intros H. unfold commandsIssued. cbn. by rewrite H. Qed.

(** Events that are no library calls change nothing of the above. *)
Lemma noCall_neutral b tr :
  Forall noCall tr ->
  sessionFlow b tr = Some b /\ released tr = false /\ commandsIssued tr = [].
Proof.
  induction 1 as [|[t ev] tr Hev _ (IH1 & IH2 & IH3)]; [done|].
  destruct ev as [op f|k d w|l m|ss from];
    [by destruct (Hev op f)|..];
    (split; [exact IH1|]; split; [exact IH2|exact IH3]).
Qed.

Section StandardRuns.

Variable env : Env.

Ltac settle :=
  eexists; split; [by rewrite <- ?app_assoc|];
  cbn; repeat split; eauto.

(** One pass through the body of the standard loop. *)
Lemma standardCycle_facts idx s :
  exists new,
    trace (stateOf (standardCycle env idx s)) = trace s ++ new /\
    sessionFlow false new = Some false /\
    (commandsIssued new = [] \/ commandsIssued new = [commandAt (self s) idx]) /\
    match standardCycle env idx s with
    | Done Continue s' =>
        self s' = self s /\ released new = false /\
        commandsIssued new = [commandAt (self s) idx]
    | Done (Return _) s' =>
        if released new then self s' = setConnection None (self s)
        else self s' = self s
    | Panicked _ s' => self s' = self s /\ released new = false
    | OutOfFuel _ => False
    end.
Proof.
  unfold standardCycle, commandAt. run.
  destruct (signaledAt env (clock s)) eqn:Hsig; run.
  { settle. }
  destruct (ttlReached (self s) (clock s)) eqn:Httl; run.
  { settle. }
  destruct (getCommand (self s) idx) as [command|p] eqn:Hcmd; run.
  2:{ exists []. rewrite app_nil_r. cbn. repeat split; eauto. }
  destruct (Connection (self s)) as [c|] eqn:Hc; run.
  2:{ exists []. rewrite app_nil_r. cbn. repeat split; eauto. }
  destruct (failure (reply env (tick s))) as [n|]; run.
  { settle. }
  match goal with |- context [failure ?r] => destruct (failure r) end; run.
  { unfold Close. run. rewrite Hc. run. settle. }
  match goal with |- context [failure ?r] => destruct (failure r) end; run.
  { unfold Close. run. rewrite Hc. run. settle. }
  settle.
Qed.


Lemma cadenceSleep_facts s :
  exists new,
    trace (stateOf (cadenceSleep env s)) = trace s ++ new /\
    Forall noCall new /\
    match cadenceSleep env s with
    | Done _ s' => self s' = self s /\ CommandRate (self s) <> 0
    | Panicked p s' =>
        self s' = self s /\ p = DivideByZero /\ CommandRate (self s) = 0 /\
        new = []
    | OutOfFuel _ => False
    end.
Proof.
  unfold cadenceSleep. run.
  destruct (getSleepDuration (self s)) as [d|p] eqn:Hd; run.
  - assert (CommandRate (self s) <> 0).
    { intros H0. unfold getSleepDuration, div64 in Hd. by rewrite H0 in Hd. }
    destruct (raceTimer env (clock s) (tick s) d) as [[|] t']; run.
    all: eexists; split; [done|]; split; [|done].
    all: by repeat constructor.
  - exists []. rewrite app_nil_r. split; [done|]. split; [constructor|].
    unfold getSleepDuration, div64 in Hd.
    destruct (Z.eqb_spec (CommandRate (self s)) 0); [|done].
    by injection Hd as <-.
Qed.

Lemma commandsIssued_step (a : Agent) idx n :
  [commandAt a idx] ++
    map (fun i => commandAt a (idx + 1 + Z.of_nat i)) (seq 0 n) =
  map (fun i => commandAt a (idx + Z.of_nat i)) (seq 0 (S n)).
Proof.
  cbn [seq map app]. rewrite Z.add_0_r. f_equal.
  rewrite <- seq_shift, map_map. apply map_ext. intros i. f_equal. lia.
Qed.

(** The standard loop, for any number of cycles. *)
Lemma standardLoop_facts fuel idx s :
  exists new,
    trace (stateOf (standardLoop env fuel idx s)) = trace s ++ new /\
    sessionFlow false new = Some false /\
    (if released new
     then self (stateOf (standardLoop env fuel idx s)) = setConnection None (self s)
     else self (stateOf (standardLoop env fuel idx s)) = self s) /\
    (0 <= idx -> idx + Z.of_nat fuel <= 2 ^ 63 ->
     exists n, (n <= fuel)%nat /\
       commandsIssued new =
         map (fun i => commandAt (self s) (idx + Z.of_nat i)) (seq 0 n)).
Proof.
  revert idx s. induction fuel as [|fuel IH]; intros idx s.
  { exists []. rewrite app_nil_r. cbn. do 3 (split; [done|]).
    intros _ _. exists 0%nat. split; [lia|done]. }
  rewrite standardLoop_S.
  destruct (standardCycle_facts idx s) as (n1 & Ht1 & Hf1 & Hc1 & Ho1).
  destruct (standardCycle env idx s) as [[e|] s1|p s1|s1]; cbn [stateOf] in *.
  - exists n1. do 2 (split; [done|]). split; [exact Ho1|]. intros _ _.
    destruct Hc1 as [Hc1|Hc1]; rewrite Hc1; [exists 0%nat; split; [lia|done]|exists 1%nat].
    split; [lia|]. cbn. by rewrite Z.add_0_r.
  - destruct Ho1 as (Hs1 & Hr1 & Hcm1).
    destruct (cadenceSleep_facts s1) as (n2 & Ht2 & Hn2 & Ho2).
    destruct (noCall_neutral false n2 Hn2) as (Hf2 & Hr2 & Hc2).
    assert (Hone : commandsIssued (n1 ++ n2) =
                   map (fun i => commandAt (self s) (idx + Z.of_nat i)) (seq 0 1)).
    { rewrite commandsIssued_app, Hcm1, Hc2. cbn. by rewrite Z.add_0_r. }
    destruct (cadenceSleep env s1) as [[e|] s2|p s2|s2]; cbn [stateOf] in *.
    + exists (n1 ++ n2). rewrite Ht2, Ht1, app_assoc. split; [done|].
      rewrite (sessionFlow_then _ _ _ _ Hf1), Hf2.
      rewrite released_app, Hr1, Hr2.
      split; [done|]. destruct Ho2 as [-> _].
      split; [done|]. intros _ _. exists 1%nat. split; [lia|done].
    + destruct Ho2 as [Hs2 _].
      destruct (IH (add64 idx 1) s2) as (n3 & Ht3 & Hf3 & Hr3 & Hc3).
      rewrite Hs2, Hs1 in Hr3, Hc3.
      exists (n1 ++ n2 ++ n3). rewrite Ht3, Ht2, Ht1, !app_assoc.
      split; [done|]. rewrite <- app_assoc.
      rewrite (sessionFlow_then _ _ _ _ Hf1), (sessionFlow_then _ _ _ _ Hf2).
      rewrite !released_app, Hr1, Hr2.
      cbn [orb]. do 2 (split; [done|]).
      intros Hi Hf. destruct fuel as [|fuel].
      { exists 1%nat. split; [lia|].
        destruct (IH (add64 idx 1) s2) as (? & Ht3' & _).
        cbn [standardLoop outOfFuel stateOf] in Ht3, Ht3'.
        rewrite <- (app_nil_r (trace s2)) in Ht3 at 1.
        apply app_inv_head in Ht3. subst n3.
        by rewrite app_nil_r. }
      destruct Hc3 as (n & Hn & Hcm3).
      { unfold add64. rewrite wrap64_id;
          unfold inInt64, MinInt64, MaxInt64; lia. }
      { unfold add64. rewrite wrap64_id;
          unfold inInt64, MinInt64, MaxInt64; lia. }
      exists (S n). split; [lia|].
      rewrite !commandsIssued_app, Hcm1, Hc2, Hcm3. cbn [app].
      unfold add64. rewrite wrap64_id
        by (unfold inInt64, MinInt64, MaxInt64; lia).
      apply (commandsIssued_step (self s) idx n).
    + exists (n1 ++ n2). rewrite Ht2, Ht1, app_assoc. split; [done|].
      rewrite (sessionFlow_then _ _ _ _ Hf1), Hf2.
      rewrite released_app, Hr1, Hr2.
      split; [done|]. destruct Ho2 as [-> _].
      split; [done|]. intros _ _. exists 1%nat. split; [lia|done].
    + done.
  - destruct Ho1 as [Hs1 Hr1]. exists n1. do 2 (split; [done|]).
    rewrite Hr1. split; [done|]. intros _ _.
    destruct Hc1 as [Hc1|Hc1]; rewrite Hc1; [exists 0%nat; split; [lia|done]|exists 1%nat].
    split; [lia|]. cbn. by rewrite Z.add_0_r.
  - done.
Qed.

End StandardRuns.

Section TTYRuns.

Variable env : Env.

Ltac settle :=
  eexists; split; [by rewrite <- ?app_assoc|];
  cbn; repeat split; eauto.

(** One pass through the body of the interactive loop. *)
Lemma ttyCycle_facts sess idx s :
  exists new,
    trace (stateOf (ttyCycle env sess idx s)) = trace s ++ new /\
    (forall b, sessionFlow b new = Some b) /\
    released new = false /\
    self (stateOf (ttyCycle env sess idx s)) = self s /\
    (commandsIssued new = [] \/
     commandsIssued new = [onTheWire true (commandAt (self s) idx)]) /\
    match ttyCycle env sess idx s with
    | Done Continue _ =>
        commandsIssued new = [onTheWire true (commandAt (self s) idx)]
    | Done (Return _) _ => True
    | Panicked _ _ => new = []
    | OutOfFuel _ => False
    end.
Proof.
  unfold ttyCycle, commandAt, onTheWire. run.
  destruct (signaledAt env (clock s)) eqn:Hsig; run.
  { settle. }
  destruct (ttlReached (self s) (clock s)) eqn:Httl; run.
  { settle. }
  destruct (getCommand (self s) idx) as [command|p] eqn:Hcmd; run.
  2:{ exists []. rewrite app_nil_r. cbn. repeat split; eauto. }
  match goal with |- context [failure ?r] => destruct (failure r) end; run.
  all: settle.
Qed.

Lemma ttySleep_facts s :
  exists new,
    trace (stateOf (ttySleep env s)) = trace s ++ new /\
    Forall noCall new /\
    match ttySleep env s with
    | Done _ s' => self s' = self s /\ CommandRate (self s) <> 0
    | Panicked p s' =>
        self s' = self s /\ p = DivideByZero /\ CommandRate (self s) = 0 /\
        new = []
    | OutOfFuel _ => False
    end.
Proof.
  unfold ttySleep. run.
  destruct (getSleepDuration (self s)) as [d|p] eqn:Hd; run.
  - rewrite Hd. run.
    assert (CommandRate (self s) <> 0).
    { intros H0. unfold getSleepDuration, div64 in Hd. by rewrite H0 in Hd. }
    match goal with |- context [raceTimer env ?t ?k ?x] =>
      destruct (raceTimer env t k x) as [[|] t'] end; run.
    all: eexists; split; [by rewrite <- !app_assoc|]; split; [|done].
    all: by repeat constructor.
  - exists []. rewrite app_nil_r. split; [done|]. split; [constructor|].
    unfold getSleepDuration, div64 in Hd.
    destruct (Z.eqb_spec (CommandRate (self s)) 0); [|done].
    by injection Hd as <-.
Qed.

Lemma wire_step (a : Agent) idx n :
  [onTheWire true (commandAt a idx)] ++
    map (fun i => onTheWire true (commandAt a (idx + 1 + Z.of_nat i))) (seq 0 n) =
  map (fun i => onTheWire true (commandAt a (idx + Z.of_nat i))) (seq 0 (S n)).
Proof.
  cbn [seq map app]. rewrite Z.add_0_r. f_equal.
  rewrite <- seq_shift, map_map. apply map_ext. intros i. do 2 f_equal. lia.
Qed.

(** The interactive loop, for any number of cycles. *)
Lemma ttyLoop_facts fuel sess idx s :
  exists new,
    trace (stateOf (ttyLoop env fuel sess idx s)) = trace s ++ new /\
    (forall b, sessionFlow b new = Some b) /\
    released new = false /\
    self (stateOf (ttyLoop env fuel sess idx s)) = self s /\
    (0 <= idx -> idx + Z.of_nat fuel <= 2 ^ 63 ->
     exists n, (n <= fuel)%nat /\
       commandsIssued new =
         map (fun i => onTheWire true (commandAt (self s) (idx + Z.of_nat i)))
             (seq 0 n)).
Proof.
  revert idx s. induction fuel as [|fuel IH]; intros idx s.
  { exists []. rewrite app_nil_r. cbn. do 4 (split; [done|]).
    intros _ _. exists 0%nat. split; [lia|done]. }
  rewrite ttyLoop_S.
  destruct (ttyCycle_facts sess idx s)
    as (n1 & Ht1 & Hf1 & Hr1 & Hs1 & Hc1 & Ho1).
  assert (Hshort : 0 <= idx -> idx + Z.of_nat (S fuel) <= 2 ^ 63 ->
            exists n, (n <= S fuel)%nat /\
              commandsIssued n1 =
                map (fun i => onTheWire true (commandAt (self s) (idx + Z.of_nat i)))
                    (seq 0 n)).
  { intros _ _. destruct Hc1 as [Hc1|Hc1]; rewrite Hc1;
      [exists 0%nat; split; [lia|done]|exists 1%nat].
    split; [lia|]. cbn. by rewrite Z.add_0_r. }
  destruct (ttyCycle env sess idx s) as [[e|] s1|p s1|s1]; cbn [stateOf] in *.
  - exists n1. do 4 (split; [done|]). done.
  - destruct (ttySleep_facts s1) as (n2 & Ht2 & Hn2 & Ho2).
    destruct (noCall_neutral false n2 Hn2) as (_ & Hr2 & Hc2).
    assert (Hf2 : forall b, sessionFlow b n2 = Some b).
    { intros b. by destruct (noCall_neutral b n2 Hn2). }
    assert (Hone : commandsIssued (n1 ++ n2) =
              map (fun i => onTheWire true (commandAt (self s) (idx + Z.of_nat i)))
                  (seq 0 1)).
    { rewrite commandsIssued_app, Ho1, Hc2. cbn. by rewrite Z.add_0_r. }
    assert (Hflow12 : forall b, sessionFlow b (n1 ++ n2) = Some b).
    { intros b. by rewrite (sessionFlow_then _ _ _ _ (Hf1 b)). }
    destruct (ttySleep env s1) as [[e|] s2|p s2|s2]; cbn [stateOf] in *.
    + exists (n1 ++ n2). rewrite Ht2, Ht1, app_assoc. split; [done|].
      rewrite released_app, Hr1, Hr2.
      do 2 (split; [done|]). destruct Ho2 as [-> _].
      split; [done|]. intros _ _. exists 1%nat. split; [lia|done].
    + destruct Ho2 as [Hs2 _].
      destruct (IH (add64 idx 1) s2) as (n3 & Ht3 & Hf3 & Hr3 & Hs3 & Hc3).
      rewrite Hs2, Hs1 in Hs3, Hc3.
      exists (n1 ++ n2 ++ n3). rewrite Ht3, Ht2, Ht1, !app_assoc.
      split; [done|]. rewrite <- app_assoc. split.
      { intros b. rewrite (sessionFlow_then _ _ _ _ (Hf1 b)).
        by rewrite (sessionFlow_then _ _ _ _ (Hf2 b)). }
      rewrite !released_app, Hr1, Hr2, Hr3.
      do 2 (split; [done|]).
      intros Hi Hf. destruct fuel as [|fuel].
      { exists 1%nat. split; [lia|].
        cbn [ttyLoop outOfFuel stateOf] in Ht3.
        rewrite <- (app_nil_r (trace s2)) in Ht3 at 1.
        apply app_inv_head in Ht3. subst n3. by rewrite app_nil_r. }
      destruct Hc3 as (n & Hn & Hcm3).
      { unfold add64. rewrite wrap64_id;
          unfold inInt64, MinInt64, MaxInt64; lia. }
      { unfold add64. rewrite wrap64_id;
          unfold inInt64, MinInt64, MaxInt64; lia. }
      exists (S n). split; [lia|].
      rewrite !commandsIssued_app, Ho1, Hc2, Hcm3. cbn [app].
      unfold add64. rewrite wrap64_id
        by (unfold inInt64, MinInt64, MaxInt64; lia).
      apply (wire_step (self s) idx n).
    + exists (n1 ++ n2). rewrite Ht2, Ht1, app_assoc. split; [done|].
      rewrite released_app, Hr1, Hr2.
      do 2 (split; [done|]). destruct Ho2 as [-> _].
      split; [done|]. intros _ _. exists 1%nat. split; [lia|done].
    + done.
  - exists n1. do 4 (split; [done|]). done.
  - done.
Qed.


Ltac closes Hc :=
  unfold Close; run; rewrite Hc; run; settle;
  intros _; exists 0%nat; split; [lia|done].

Lemma ttySetup_facts fuel sess s c :
  Connection (self s) = Some c ->
  exists new,
    trace (stateOf (ttySetup env fuel sess s)) = trace s ++ new /\
    (forall b, sessionFlow b new = Some b) /\
    (if released new
     then self (stateOf (ttySetup env fuel sess s)) = setConnection None (self s)
     else self (stateOf (ttySetup env fuel sess s)) = self s) /\
    (Z.of_nat fuel <= 2 ^ 63 ->
     exists n, (n <= fuel)%nat /\
       commandsIssued new =
         map (fun i => onTheWire true (commandAt (self s) (Z.of_nat i)))
             (seq 0 n)).
Proof.
  intros Hc. unfold ttySetup. run.
  match goal with |- context [failure ?r] => destruct (failure r) end; run.
  { closes Hc. }
  match goal with |- context [failure ?r] => destruct (failure r) end; run.
  { closes Hc. }
  match goal with |- context [failure ?r] => destruct (failure r) end; run.
  { closes Hc. }
  match goal with |- context [failure ?r] => destruct (failure r) end; run.
  { closes Hc. }
  match goal with |- context [failure ?r] => destruct (failure r) end; run.
  { closes Hc. }
  match goal with |- context [raceTimer env ?t ?k ?x] =>
    destruct (raceTimer env t k x) as [[|] t'] end; run.
  - match goal with |- context [ttyLoop env fuel sess 0 ?s1] =>
      destruct (ttyLoop_facts fuel sess 0 s1)
        as (n3 & Ht3 & Hf3 & Hr3 & Hs3 & Hc3) end.
    run in Ht3. run in Hs3. run in Hc3.
    eexists. split; [rewrite Ht3; by rewrite <- !app_assoc|].
    split.
    { intros b. cbn [app sessionFlow sessionStep snd]. apply Hf3. }
    split.
    { unfold released in *. cbn [app existsb fatalToConnection snd orb].
      by rewrite Hr3. }
    intros Hfuel. destruct Hc3 as (n & Hn & Hcm); [lia|lia|].
    exists n. split; [done|]. cbn [app].
    by rewrite !commandsIssued_skip.
  - settle. intros _. exists 0%nat. split; [lia|done].
Qed.

Lemma RunTTYProgram_facts fuel s :
  runFacts true s fuel (RunTTYProgram env fuel s).
Proof.
  unfold RunTTYProgram, runFacts. run.
  destruct (Connection (self s)) as [c|] eqn:Hc; run.
  2:{ exists []. rewrite app_nil_r. cbn. do 3 (split; [done|]).
      intros _. exists 0%nat. split; [lia|done]. }
  destruct (failure (reply env (tick s))); run.
  { settle. intros _. exists 0%nat. split; [lia|done]. }
  unfold defer.
  match goal with |- context [ttySetup env fuel ?ss ?st] =>
    destruct (ttySetup_facts fuel ss st c Hc) as (new & Ht & Hf & Hr & Hcm);
    destruct (ttySetup env fuel ss st) as [e s2|p s2|s2]
  end; run; cbn [stateOf] in Ht, Hr; run in Ht; run in Hr; run in Hcm.
  - eexists. split; [rewrite Ht; by rewrite <- !app_assoc|].
    cbn [app].
    split.
    { cbn [sessionFlow sessionStep snd].
      by rewrite (sessionFlow_then _ _ _ _ (Hf true)). }
    split.
    { unfold released in *. cbn [existsb fatalToConnection snd orb].
      rewrite existsb_app. cbn [existsb fatalToConnection snd orb].
      rewrite orb_false_r. exact Hr. }
    intros Hfuel. destruct (Hcm Hfuel) as (n & Hn & Hcn).
    exists n. split; [done|].
    rewrite commandsIssued_skip by done.
    rewrite commandsIssued_app, Hcn. apply app_nil_r.
  - eexists. split; [rewrite Ht; by rewrite <- !app_assoc|].
    cbn [app].
    split.
    { cbn [sessionFlow sessionStep snd].
      by rewrite (sessionFlow_then _ _ _ _ (Hf true)). }
    split.
    { unfold released in *. cbn [existsb fatalToConnection snd orb].
      rewrite existsb_app. cbn [existsb fatalToConnection snd orb].
      rewrite orb_false_r. exact Hr. }
    intros Hfuel. destruct (Hcm Hfuel) as (n & Hn & Hcn).
    exists n. split; [done|].
    rewrite commandsIssued_skip by done.
    rewrite commandsIssued_app, Hcn. apply app_nil_r.
  - eexists. split; [rewrite Ht; by rewrite <- !app_assoc|].
    cbn [app].
    split; [done|]. split.
    { unfold released in *. cbn [existsb fatalToConnection snd orb]. exact Hr. }
    intros Hfuel. destruct (Hcm Hfuel) as (n & Hn & Hcn).
    exists n. split; [done|]. by rewrite commandsIssued_skip.
Qed.

Lemma RunStandardProgram_facts fuel s :
  runFacts false s fuel (RunStandardProgram env fuel s).
Proof.
  unfold RunStandardProgram, runFacts. run.
  destruct (Connection (self s)) as [c|] eqn:Hc; run.
  2:{ exists []. rewrite app_nil_r. cbn. do 3 (split; [done|]).
      intros _. exists 0%nat. split; [lia|done]. }
  destruct (standardLoop_facts env fuel 0 s) as (new & Ht & Hf & Hr & Hcm).
  exists new. split; [done|]. split; [by destruct (standardLoop env fuel 0 s)|].
  split; [done|]. intros Hfuel.
  destruct Hcm as (n & Hn & Hcn); [lia|lia|]. exists n. split; [done|].
  rewrite Hcn. apply map_ext. intros i. unfold onTheWire. f_equal.
Qed.

Lemma RunProgram_facts fuel s :
  runFacts (UseTTY (self s)) s fuel (RunProgram env fuel s).
Proof.
  unfold RunProgram. run. destruct (UseTTY (self s)).
  - apply RunTTYProgram_facts.
  - apply RunStandardProgram_facts.
Qed.

End TTYRuns.

(** * Whole runs of the command loops *)

Lemma commandAt_scriptLine a (i : nat) :
  commandAt a (Z.of_nat i) = scriptLine (CommandScript a) i.
Proof.
  unfold commandAt, getCommand, scriptLine, len.
  destruct (CommandScript a) as [|l script] eqn:Hs; [done|].
  rewrite <- Hs.
  destruct (Z.ltb_spec 0 (Z.of_nat (length (CommandScript a)))) as [_|Hz].
  2:{ rewrite Hs in Hz. cbn in Hz. lia. }
  destruct (Z.leb_spec (Z.of_nat (length (CommandScript a))) (Z.of_nat i))
    as [Hge|Hlt].
  - rewrite lookup_ge_None_2 by lia. done.
  - destruct (index_in_bounds (CommandScript a) (Z.of_nat i)) as (x & Hx & Hi);
      [unfold len; lia|].
    rewrite Nat2Z.id in Hx. by rewrite Hi, Hx.
Qed.

Lemma runFacts_new tty s fuel o new :
  runFacts tty s fuel o -> appended s (stateOf o) new ->
  match o with
  | OutOfFuel _ => True
  | _ => sessionFlow false new = Some false
  end /\
  (if released new then self (stateOf o) = setConnection None (self s)
   else self (stateOf o) = self s) /\
  (Z.of_nat fuel <= 2 ^ 63 ->
   exists n, (n <= fuel)%nat /\
     commandsIssued new =
       map (fun i => onTheWire tty (commandAt (self s) (Z.of_nat i)))
           (seq 0 n)).
Proof.
  intros (new' & Ht & H) Happ. unfold appended in Happ.
  rewrite Ht in Happ. apply app_inv_head in Happ. by subst new'.
Qed.



(** X9. Commands go out in script order, one per cycle.  The commands a
    run of [RunProgram] of at most 2^63 cycles sends to the server (the
    arguments of [sess.Output], or the writes to the shell's stdin) are, in
    order, the lines 0, 1, ..., n-1 of the script for some n that is at most
    the number of cycles: each followed by a carriage return in interactive
    mode, the empty string once the script is exhausted (it is not
    repeated), and the default command at every cycle when there is no
    script. *)
Theorem RunProgram_commands_in_script_order (env : Env) (fuel : nat)
    (s : State) (new : list (Time * Event)) :
  appended s (stateOf (RunProgram env fuel s)) new ->
  Z.of_nat fuel <= 2 ^ 63 ->
  exists n, (n <= fuel)%nat /\
    commandsIssued new =
      map (fun i => onTheWire (UseTTY (self s))
                      (scriptLine (CommandScript (self s)) i))
          (seq 0 n).
Proof.
  intros Happ Hfuel.
  destruct (runFacts_new _ _ _ _ _ (RunProgram_facts env fuel s) Happ)
    as (_ & _ & Hc).
  destruct (Hc Hfuel) as (n & Hn & Hcn). exists n. split; [done|].
  rewrite Hcn. apply map_ext. intros i. by rewrite commandAt_scriptLine.
Qed.

Lemma RunProgram_commands_in_script_order_witness :
  exists n, (n <= 9)%nat /\
    commandsIssued
      (trace (stateOf (RunProgram envAllOk 9
                (initial (connected 7%nat (agentWith 0 ["ls"; "pwd"]%string))))))
    = map (fun i => onTheWire false (scriptLine ["ls"; "pwd"]%string i))
          (seq 0 n).
Proof.
  apply (RunProgram_commands_in_script_order envAllOk 9
           (initial (connected 7%nat (agentWith 0 ["ls"; "pwd"]%string)))).
  - vm_compute. reflexivity.
  - vm_compute. discriminate.
Defined.

(** X10. When the loops give the connection up.  After a run of
    [RunProgram] the agent is the agent it started as, except that its
    connection is [nil] when, and only when, one of the calls
    [RequestPty], [StdinPipe], [StdoutPipe], [StderrPipe], [Shell] or
    [Output] failed during the run.  So a failed [NewSession], a failed
    write to the shell, the TTL, a cancellation and a panic all leave the
    connection in place. *)
Theorem RunProgram_releases_on_fatal_failure_only (env : Env) (fuel : nat)
    (s : State) (new : list (Time * Event)) :
  appended s (stateOf (RunProgram env fuel s)) new ->
  self (stateOf (RunProgram env fuel s))
    = if released new then setConnection None (self s) else self s.
Proof.
  intros Happ.
  destruct (runFacts_new _ _ _ _ _ (RunProgram_facts env fuel s) Happ)
    as (_ & Hr & _).
  by destruct (released new).
Qed.

Lemma RunProgram_releases_on_fatal_failure_only_witness :
  self (stateOf (RunProgram (envFailingFrom 1) 5 (initial agentInSession)))
    = setConnection None agentInSession /\
  self (stateOf (RunProgram (envFailingFrom 0) 5 (initial agentInSession)))
    = agentInSession.
Proof.
  split.
  - apply (RunProgram_releases_on_fatal_failure_only (envFailingFrom 1) 5
             (initial agentInSession)
             (trace (stateOf (RunProgram (envFailingFrom 1) 5
                                (initial agentInSession))))).
    vm_compute. reflexivity.
  - apply (RunProgram_releases_on_fatal_failure_only (envFailingFrom 0) 5
             (initial agentInSession)
             (trace (stateOf (RunProgram (envFailingFrom 0) 5
                                (initial agentInSession))))).
    vm_compute. reflexivity.
Defined.

(** * A cadence of zero *)

Section RateZero.

Variable env : Env.

Ltac leaf :=
  first
    [ by (exists []; split;
          [unfold appended; run; by rewrite app_nil_r | cbn; auto])
    | eexists; split; [unfold appended; run; by rewrite <- ?app_assoc|];
      cbn; first [by left | by right | done] ].

Lemma getSleepDuration_rate_zero a :
  CommandRate a = 0 -> getSleepDuration a = Panics DivideByZero.
Proof. intros H0. unfold getSleepDuration, div64. by rewrite H0. Qed.

Lemma standardLoop_rate_zero fuel s c :
  CommandRate (self s) = 0 -> Connection (self s) = Some c ->
  exists new,
    appended s (stateOf (standardLoop env (S fuel) 0 s)) new /\
    match standardLoop env (S fuel) 0 s with
    | Done e _ => commandsIssued new = [] \/ e <> None
    | Panicked p _ =>
        p = DivideByZero /\ commandsIssued new = [commandAt (self s) 0]
    | OutOfFuel _ => False
    end.
Proof.
  intros H0 Hc. rewrite standardLoop_S. unfold standardCycle, commandAt. run.
  destruct (signaledAt env (clock s)); run; [leaf|].
  destruct (ttlReached (self s) (clock s)); run; [leaf|].
  destruct (getCommand_value (self s) 0) as [cmd Hcmd]; [lia|].
  rewrite Hcmd. run. rewrite Hc. run.
  destruct (failure (reply env (tick s))); run; [leaf|].
  match goal with |- context [failure ?r] => destruct (failure r) end; run.
  { unfold Close. run. rewrite Hc. run. leaf. }
  match goal with |- context [failure ?r] => destruct (failure r) end; run.
  { unfold Close. run. rewrite Hc. run. leaf. }
  unfold cadenceSleep. run. rewrite (getSleepDuration_rate_zero _ H0). run.
  leaf.
Qed.

Lemma RunTTYProgram_rate_zero fuel s :
  CommandRate (self s) = 0 ->
  exists new,
    appended s (stateOf (RunTTYProgram env (S fuel) s)) new /\
    match RunTTYProgram env (S fuel) s with
    | Done e _ => commandsIssued new = [] \/ e <> None
    | Panicked p _ =>
        p = DivideByZero /\
        commandsIssued new = [onTheWire true (commandAt (self s) 0)]
    | OutOfFuel _ => False
    end.
Proof.
  intros H0. unfold RunTTYProgram, onTheWire, commandAt. run.
  destruct (Connection (self s)) as [c|] eqn:Hc; run; [|leaf].
  destruct (failure (reply env (tick s))); run; [leaf|].
  unfold defer, ttySetup. run.
  match goal with |- context [failure ?r] => destruct (failure r) end; run.
  { unfold Close. run. rewrite Hc. run. leaf. }
  match goal with |- context [failure ?r] => destruct (failure r) end; run.
  { unfold Close. run. rewrite Hc. run. leaf. }
  match goal with |- context [failure ?r] => destruct (failure r) end; run.
  { unfold Close. run. rewrite Hc. run. leaf. }
  match goal with |- context [failure ?r] => destruct (failure r) end; run.
  { unfold Close. run. rewrite Hc. run. leaf. }
  match goal with |- context [failure ?r] => destruct (failure r) end; run.
  { unfold Close. run. rewrite Hc. run. leaf. }
  match goal with |- context [raceTimer env ?t ?k ?x] =>
    destruct (raceTimer env t k x) as [[|] t'] end; run.
  2:{ unfold ctxErr. leaf. }
  rewrite ttyLoop_S. unfold ttyCycle. run.
  match goal with |- context [signaledAt env ?t] =>
    destruct (signaledAt env t) end; run; [leaf|].
  match goal with |- context [ttlReached ?a ?t] =>
    destruct (ttlReached a t) end; run; [leaf|].
  destruct (getCommand_value (self s) 0) as [cmd Hcmd]; [lia|].
  rewrite Hcmd. run.
  match goal with |- context [failure ?r] => destruct (failure r) end; run;
    [leaf|].
  unfold ttySleep. run. rewrite (getSleepDuration_rate_zero _ H0). run.
  leaf.
Qed.

(** X11. A cadence of zero.  With [CommandRate = 0] no run of
    [RunProgram] reaches a second cycle.  It returns [nil] only when it has
    sent no command (the TTL or a cancellation came first); when it has sent
    its first command and that call did not fail, the run panics with an
    integer division by zero, raised by [getSleepDuration] when the pause
    is about to be computed. *)
Theorem RunProgram_rate_zero (fuel : nat) (s : State) :
  CommandRate (self s) = 0 ->
  exists new,
    appended s (stateOf (RunProgram env (S fuel) s)) new /\
    match RunProgram env (S fuel) s with
    | Done e _ => commandsIssued new = [] \/ e <> None
    | Panicked p _ =>
        p = DivideByZero /\
        commandsIssued new =
          [onTheWire (UseTTY (self s)) (scriptLine (CommandScript (self s)) 0)]
    | OutOfFuel _ => False
    end.
Proof.
  intros H0. rewrite <- (commandAt_scriptLine (self s) 0).
  unfold RunProgram. run. destruct (UseTTY (self s)).
  - by apply RunTTYProgram_rate_zero.
  - unfold RunStandardProgram. run.
    destruct (Connection (self s)) as [c|] eqn:Hc; run; [|leaf].
    by apply (standardLoop_rate_zero fuel s c).
Qed.

End RateZero.

Lemma RunProgram_rate_zero_witness :
  let s := initial (connected 7%nat (agentAtRate 0)) in
  (exists new,
     appended s (stateOf (RunProgram envAllOk 4 s)) new /\
     match RunProgram envAllOk 4 s with
     | Done e _ => commandsIssued new = [] \/ e <> None
     | Panicked p _ =>
         p = DivideByZero /\
         commandsIssued new = [onTheWire false (scriptLine [] 0)]
     | OutOfFuel _ => False
     end) /\
  exists s', RunProgram envAllOk 4 s = Panicked DivideByZero s'.
Proof.
  split.
  - apply (RunProgram_rate_zero envAllOk 3
             (initial (connected 7%nat (agentAtRate 0)))).
    reflexivity.
  - vm_compute. eexists. reflexivity.
Defined.

(** * Interactive mode and the cancellation token *)

Section TTYCancellation.

Variable env : Env.

(** X12. Cancellation while the shell is being set up is an error, not a
    clean stop.  If the token is signaled before the ten seconds that
    [RunTTYProgram] gives the shell have passed (it may be signaled already
    when [RunTTYProgram] is called) and the six calls of the setup succeed,
    the run still opens its session, requests the terminal, the three
    pipes and the shell, then returns [ctx.Err()], which is not [nil];
    the deferred [sess.Close()] is its last call, no command was written
    and the agent keeps its connection. *)
Theorem RunTTYProgram_cancelled_during_setup (fuel : nat) (s : State)
    (c : Client) (t : Time) :
  Connection (self s) = Some c ->
  cancelAt env = Some t -> t < clock s + 10 * Second ->
  (forall i, (i < 6)%nat -> failure (reply env (i + tick s)) = None) ->
  exists s' new,
    RunTTYProgram env fuel s = Done (Some ContextCanceled) s' /\
    self s' = self s /\
    appended s s' new /\
    callsOf new =
      [NewSession c; RequestPty (tick s) xterm 100 30 ttyModes;
       StdinPipe (tick s); StdoutPipe (tick s); StderrPipe (tick s);
       Shell (tick s); SessionClose (tick s)] /\
    commandsIssued new = [].
Proof.
  intros Hc Hcancel Ht Hok.
  pose proof (Hok 0%nat ltac:(lia)) as H0.
  pose proof (Hok 1%nat ltac:(lia)) as H1.
  pose proof (Hok 2%nat ltac:(lia)) as H2.
  pose proof (Hok 3%nat ltac:(lia)) as H3.
  pose proof (Hok 4%nat ltac:(lia)) as H4.
  pose proof (Hok 5%nat ltac:(lia)) as H5.
  cbn [Nat.add] in H0, H1, H2, H3, H4, H5.
  unfold RunTTYProgram. run. rewrite Hc. run. rewrite H0. run.
  unfold defer, ttySetup. run. rewrite H1. run. rewrite H2. run.
  rewrite H3. run. rewrite H4. run. rewrite H5. run.
  assert (Hm : mul64 Second 10 = 10 * Second) by reflexivity.
  rewrite Hm. unfold raceTimer. rewrite Hcancel.
  match goal with |- context [Z.ltb ?x ?y] =>
    destruct (Z.ltb_spec x y) as [_|Hge] end.
  2:{ unfold Second in *. lia. }
  run. do 2 eexists. split; [reflexivity|]. run. split; [done|].
  split; [unfold appended; run; by rewrite <- !app_assoc|]. done.
Qed.

(** X13. The interactive loop and the cancellation token.  If the token
    is signaled when a cycle begins, the loop returns [nil] at once and
    only writes its log line.  If a cycle has written its command and the
    token is signaled no later than the end of the wait that follows, the
    loop returns [nil] and makes no library call after that write. *)
Theorem ttyLoop_cancellation_returns_nil (fuel : nat) (sess : Session)
    (idx : Z) (s : State) :
  (signaledAt env (clock s) = true ->
     ttyLoop env (S fuel) sess idx s =
       Done None (emit (Log LvlInfo MsgContextCancelled) s)) /\
  (forall s1 d c,
     ttyCycle env sess idx s = Done Continue s1 ->
     getSleepDuration (self s1) = Value d ->
     cancelAt env = Some c -> c <= clock s1 + Z.max 0 d ->
     exists s' new,
       ttyLoop env (S (S fuel)) sess idx s = Done None s' /\
       appended s1 s' new /\ Forall noCall new).
Proof.
  assert (Htop : forall fuel' idx' s0,
             signaledAt env (clock s0) = true ->
             ttyLoop env (S fuel') sess idx' s0 =
               Done None (emit (Log LvlInfo MsgContextCancelled) s0)).
  { intros fuel' idx' s0 Hsig. rewrite ttyLoop_S.
    unfold ttyCycle. run. rewrite Hsig. by run. }
  split; [apply Htop|].
  - intros s1 d c Hcyc Hd Hc Hle.
    rewrite ttyLoop_S, Hcyc. unfold ttySleep. run.
    rewrite Hd. run. rewrite Hd. run. unfold raceTimer. rewrite Hc.
    destruct (Z.ltb_spec (Z.max c (clock s1)) (clock s1 + Z.max 0 d)); run.
    { do 2 eexists. split; [done|]. unfold appended. run.
      split; [by rewrite <- ?app_assoc|]. by events. }
    destruct (Z.ltb_spec (clock s1 + Z.max 0 d) (Z.max c (clock s1)));
      [lia|].
    destruct (timerFirst env (tick s1)); run.
    + rewrite Htop.
      * do 2 eexists. split; [done|]. unfold appended. run.
        split; [by rewrite <- ?app_assoc|]. by events.
      * unfold signaledAt. rewrite Hc. run. lia.
    + do 2 eexists. split; [done|]. unfold appended. run.
      split; [by rewrite <- ?app_assoc|]. by events.
Qed.

End TTYCancellation.

Lemma RunTTYProgram_cancelled_during_setup_witness :
  let s := initial (interactive agentInSession) in
  exists s' new,
    RunTTYProgram (envCancelledAt 0) 5 s = Done (Some ContextCanceled) s' /\
    self s' = self s /\
    appended s s' new /\
    callsOf new =
      [NewSession 7%nat; RequestPty 0%nat xterm 100 30 ttyModes;
       StdinPipe 0%nat; StdoutPipe 0%nat; StderrPipe 0%nat;
       Shell 0%nat; SessionClose 0%nat] /\
    commandsIssued new = [].
Proof.
  apply (RunTTYProgram_cancelled_during_setup (envCancelledAt 0) 5
           (initial (interactive agentInSession)) 7%nat 0).
  - reflexivity.
  - reflexivity.
  - cbn. unfold Second. lia.
  - intros i _. reflexivity.
Defined.

Lemma ttyLoop_cancellation_returns_nil_witness :
  let s := mkState (interactive agentInSession) 50 0 [] in
  ttyLoop (envCancelledAt 10) 1 3%nat 0 s
    = Done None (emit (Log LvlInfo MsgContextCancelled) s) /\
  exists s1 s' new,
    ttyCycle (envCancelledAt 10) 3%nat 0 (initial (interactive agentInSession))
      = Done Continue s1 /\
    ttyLoop (envCancelledAt 10) 2 3%nat 0 (initial (interactive agentInSession))
      = Done None s' /\
    appended s1 s' new /\ Forall noCall new.
Proof.
  split.
  - apply (proj1 (ttyLoop_cancellation_returns_nil (envCancelledAt 10)
                    0 3%nat 0 (mkState (interactive agentInSession) 50 0 []))).
    reflexivity.
  - eexists.
    destruct (proj2 (ttyLoop_cancellation_returns_nil
                       (envCancelledAt 10) 0 3%nat 0
                       (initial (interactive agentInSession)))
                _ (10 * Second) 10 eq_refl eq_refl eq_refl)
      as (s' & new & Hrun & Happ & Hcalls).
    + vm_compute. discriminate.
    + exists s', new. split; [reflexivity|]. split; [exact Hrun|].
      split; [exact Happ | exact Hcalls].
Defined.

(** * The pace of the commands *)

Lemma spacedFrom_lookup gap t0 ts (i : nat) t1 t2 :
  spacedFrom gap t0 ts ->
  ts !! i = Some t1 -> ts !! S i = Some t2 -> t1 + gap <= t2.
Proof.
  revert t0 i. induction ts as [|t ts IH]; intros t0 i Hsp H1 H2; [done|].
  destruct Hsp as [_ Hsp]. destruct i as [|i].
  - cbn in H1. injection H1 as ->. destruct ts as [|t' ts]; [done|].
    cbn in H2. injection H2 as ->. by destruct Hsp.
  - by apply (IH (t + gap) i).
Qed.

Lemma pacedUntil_mono gap dl t0 t0' ts :
  t0' <= t0 -> pacedUntil gap dl t0 ts -> pacedUntil gap dl t0' ts.
Proof.
  destruct ts as [|t ts]; [done|]. cbn. intros ? (? & ? & ?).
  split; [lia|]. split; [lia|done].
Qed.

Lemma pacedUntil_spaced gap dl t0 ts :
  pacedUntil gap dl t0 ts -> spacedFrom gap t0 ts.
Proof.
  revert t0. induction ts as [|t ts IH]; intros t0; [done|].
  cbn. intros (_ & ? & ?). split; [done|]. by apply IH.
Qed.



Lemma commandTimes_app tr1 tr2 :
  commandTimes (tr1 ++ tr2) = commandTimes tr1 ++ commandTimes tr2.
Proof. apply omap_app. Qed.

Lemma commandTimes_skip e tr :
  commandTime e = None -> commandTimes (e :: tr) = commandTimes tr.
Proof. intros H. unfold commandTimes. cbn. by rewrite H. Qed.

Lemma ttlReached_deadline a t : ttlReached a t = false -> t <= deadline a.
Proof. unfold ttlReached, deadline. intros H%Z.ltb_ge. done. Qed.

Section Pace.

Variable env : Env.

(** A wait of the cadence that lets the loop go on has run to its end. *)
Lemma raceTimer_fired now k d t :
  raceTimer env now k d = (TimerFired, t) -> t = now + Z.max 0 d.
Proof.
  intros H. destruct (raceTimer_spec env now k d) as (_ & _ & Hf).
  rewrite H in Hf. by apply Hf.
Qed.

(** A cycle sends its command after it has found the deadline not
    passed. *)
Lemma standardCycle_times idx s :
  exists new,
    trace (stateOf (standardCycle env idx s)) = trace s ++ new /\
    match standardCycle env idx s with
    | Done Continue s1 =>
        self s1 = self s /\
        exists t, commandTimes new = [t] /\ clock s <= t <= clock s1 /\
                  clock s <= deadline (self s)
    | _ => forall gap,
             pacedUntil gap (deadline (self s)) (clock s) (commandTimes new)
    end.
Proof.
  unfold standardCycle. run.
  destruct (signaledAt env (clock s)); run.
  { eexists. split; [done|]. done. }
  destruct (ttlReached (self s) (clock s)) eqn:Httl; run.
  { eexists. split; [done|]. done. }
  apply ttlReached_deadline in Httl.
  destruct (getCommand (self s) idx); run.
  2:{ exists []. by rewrite app_nil_r. }
  destruct (Connection (self s)) as [c|] eqn:Hc; run.
  2:{ exists []. by rewrite app_nil_r. }
  destruct (failure (reply env (tick s))); run.
  { eexists. split; [done|]. done. }
  match goal with |- context [failure ?r] => destruct (failure r) end; run.
  { unfold Close. run. rewrite Hc. run.
    eexists. split; [by rewrite <- ?app_assoc|]. done. }
  match goal with |- context [failure ?r] => destruct (failure r) end; run.
  { unfold Close. run. rewrite Hc. run.
    eexists. split; [by rewrite <- ?app_assoc|]. intros gap. cbn. lia. }
  eexists. split; [by rewrite <- ?app_assoc|]. split; [done|].
  eexists. split; [reflexivity|]. cbn. lia.
Qed.

Lemma cadenceSleep_times s :
  exists new,
    trace (stateOf (cadenceSleep env s)) = trace s ++ new /\
    commandTimes new = [] /\
    forall s2, cadenceSleep env s = Done Continue s2 ->
      self s2 = self s /\
      exists d, getSleepDuration (self s) = Value d /\
                clock s2 = clock s + Z.max 0 d.
Proof.
  unfold cadenceSleep. run.
  destruct (getSleepDuration (self s)) as [d|p] eqn:Hd; run.
  2:{ exists []. by rewrite app_nil_r. }
  destruct (raceTimer env (clock s) (tick s) d) as [[|] t'] eqn:Hr; run.
  - eexists. split; [done|]. split; [done|]. intros s2 [= <-]. split; [done|].
    exists d. split; [done|]. cbn. by apply raceTimer_fired in Hr.
  - eexists. split; [done|]. split; [done|]. by intros s2 [=].
Qed.

Lemma standardLoop_paced fuel idx s d :
  getSleepDuration (self s) = Value d ->
  exists new,
    trace (stateOf (standardLoop env fuel idx s)) = trace s ++ new /\
    pacedUntil (Z.max 0 d) (deadline (self s)) (clock s) (commandTimes new).
Proof.
  revert idx s. induction fuel as [|fuel IH]; intros idx s Hd.
  { exists []. by rewrite app_nil_r. }
  rewrite standardLoop_S.
  destruct (standardCycle_times idx s) as (n1 & Ht1 & H1).
  destruct (standardCycle env idx s) as [[e|] s1|p s1|s1]; cbn [stateOf] in *;
    try by exists n1.
  destruct H1 as (Hs1 & t & Hc1 & Hle & Hdl).
  destruct (cadenceSleep_times s1) as (n2 & Ht2 & Hc2 & H2).
  assert (Hone : pacedUntil (Z.max 0 d) (deadline (self s)) (clock s)
                   (commandTimes (n1 ++ n2))).
  { rewrite commandTimes_app, Hc1, Hc2. cbn. lia. }
  destruct (cadenceSleep env s1) as [[e|] s2|p s2|s2]; cbn [stateOf] in *.
  - exists (n1 ++ n2). by rewrite Ht2, Ht1, app_assoc.
  - destruct (H2 s2 eq_refl) as (Hs2 & d' & Hd' & Hclk).
    rewrite Hs1, Hd in Hd'. injection Hd' as <-.
    destruct (IH (add64 idx 1) s2) as (n3 & Ht3 & H3).
    { by rewrite Hs2, Hs1. }
    rewrite Hs2, Hs1 in H3.
    exists (n1 ++ n2 ++ n3). rewrite Ht3, Ht2, Ht1, !app_assoc.
    split; [done|]. rewrite <- app_assoc, !commandTimes_app, Hc1, Hc2.
    cbn. split; [lia|]. split; [lia|].
    eapply pacedUntil_mono; [|exact H3]. lia.
  - exists (n1 ++ n2). by rewrite Ht2, Ht1, app_assoc.
  - exists (n1 ++ n2). by rewrite Ht2, Ht1, app_assoc.
Qed.

Lemma ttyCycle_times sess idx s :
  exists new,
    trace (stateOf (ttyCycle env sess idx s)) = trace s ++ new /\
    self (stateOf (ttyCycle env sess idx s)) = self s /\
    match ttyCycle env sess idx s with
    | Done Continue s1 =>
        exists t, commandTimes new = [t] /\ clock s <= t <= clock s1 /\
                  clock s <= deadline (self s)
    | _ => forall gap,
             pacedUntil gap (deadline (self s)) (clock s) (commandTimes new)
    end.
Proof.
  unfold ttyCycle. run.
  destruct (signaledAt env (clock s)); run.
  { eexists. split; [done|]. done. }
  destruct (ttlReached (self s) (clock s)) eqn:Httl; run.
  { eexists. split; [done|]. done. }
  apply ttlReached_deadline in Httl.
  destruct (getCommand (self s) idx); run.
  2:{ exists []. by rewrite app_nil_r. }
  match goal with |- context [failure ?r] => destruct (failure r) end; run.
  - eexists. split; [by rewrite <- ?app_assoc|]. split; [done|].
    intros gap. cbn. lia.
  - eexists. split; [by rewrite <- ?app_assoc|]. split; [done|].
    eexists. split; [reflexivity|]. cbn. lia.
Qed.

Lemma ttySleep_times s :
  exists new,
    trace (stateOf (ttySleep env s)) = trace s ++ new /\
    commandTimes new = [] /\
    forall s2, ttySleep env s = Done Continue s2 ->
      self s2 = self s /\
      exists d, getSleepDuration (self s) = Value d /\
                clock s2 = clock s + Z.max 0 d.
Proof.
  unfold ttySleep. run.
  destruct (getSleepDuration (self s)) as [d|p] eqn:Hd; run.
  2:{ exists []. by rewrite app_nil_r. }
  rewrite Hd. run.
  match goal with |- context [raceTimer env ?t ?k ?x] =>
    destruct (raceTimer env t k x) as [[|] t'] eqn:Hr end; run.
  - eexists. split; [by rewrite <- ?app_assoc|]. split; [done|].
    intros s2 [= <-]. split; [done|].
    exists d. split; [done|]. cbn. by apply raceTimer_fired in Hr.
  - eexists. split; [by rewrite <- ?app_assoc|]. split; [done|].
    by intros s2 [=].
Qed.

Lemma ttyLoop_paced fuel sess idx s d :
  getSleepDuration (self s) = Value d ->
  exists new,
    trace (stateOf (ttyLoop env fuel sess idx s)) = trace s ++ new /\
    pacedUntil (Z.max 0 d) (deadline (self s)) (clock s) (commandTimes new).
Proof.
  revert idx s. induction fuel as [|fuel IH]; intros idx s Hd.
  { exists []. by rewrite app_nil_r. }
  rewrite ttyLoop_S.
  destruct (ttyCycle_times sess idx s) as (n1 & Ht1 & Hs1 & H1).
  destruct (ttyCycle env sess idx s) as [[e|] s1|p s1|s1]; cbn [stateOf] in *;
    try by exists n1.
  destruct H1 as (t & Hc1 & Hle & Hdl).
  destruct (ttySleep_times s1) as (n2 & Ht2 & Hc2 & H2).
  assert (Hone : pacedUntil (Z.max 0 d) (deadline (self s)) (clock s)
                   (commandTimes (n1 ++ n2))).
  { rewrite commandTimes_app, Hc1, Hc2. cbn. lia. }
  destruct (ttySleep env s1) as [[e|] s2|p s2|s2]; cbn [stateOf] in *.
  - exists (n1 ++ n2). by rewrite Ht2, Ht1, app_assoc.
  - destruct (H2 s2 eq_refl) as (Hs2 & d' & Hd' & Hclk).
    rewrite Hs1, Hd in Hd'. injection Hd' as <-.
    destruct (IH (add64 idx 1) s2) as (n3 & Ht3 & H3).
    { by rewrite Hs2, Hs1. }
    rewrite Hs2, Hs1 in H3.
    exists (n1 ++ n2 ++ n3). rewrite Ht3, Ht2, Ht1, !app_assoc.
    split; [done|]. rewrite <- app_assoc, !commandTimes_app, Hc1, Hc2.
    cbn. split; [lia|]. split; [lia|].
    eapply pacedUntil_mono; [|exact H3]. lia.
  - exists (n1 ++ n2). by rewrite Ht2, Ht1, app_assoc.
  - exists (n1 ++ n2). by rewrite Ht2, Ht1, app_assoc.
Qed.

Ltac quiet :=
  unfold Close; run;
  match goal with |- context [Connection ?a] => destruct (Connection a) end;
  run; eexists; (split; [by rewrite <- ?app_assoc|]); done.

Lemma ttySetup_paced fuel sess s d :
  getSleepDuration (self s) = Value d ->
  exists new,
    trace (stateOf (ttySetup env fuel sess s)) = trace s ++ new /\
    pacedUntil (Z.max 0 d) (deadline (self s)) (clock s) (commandTimes new).
Proof.
  intros Hd. unfold ttySetup. run.
  match goal with |- context [failure ?r] => destruct (failure r) end; run.
  { quiet. }
  match goal with |- context [failure ?r] => destruct (failure r) end; run.
  { quiet. }
  match goal with |- context [failure ?r] => destruct (failure r) end; run.
  { quiet. }
  match goal with |- context [failure ?r] => destruct (failure r) end; run.
  { quiet. }
  match goal with |- context [failure ?r] => destruct (failure r) end; run.
  { quiet. }
  match goal with |- context [raceTimer env ?t ?k ?x] =>
    pose proof (proj1 (raceTimer_spec env t k x)) as Hmono;
    destruct (raceTimer env t k x) as [[|] t'] end; run.
  2:{ eexists. split; [by rewrite <- ?app_assoc|]. done. }
  match goal with |- context [ttyLoop env fuel sess 0 ?s1] =>
    destruct (ttyLoop_paced fuel sess 0 s1 d Hd) as (n3 & Ht3 & H3) end.
  run in Ht3. run in H3. cbn [snd] in Hmono.
  eexists. split; [rewrite Ht3; by rewrite <- !app_assoc|].
  cbn [app]. rewrite !commandTimes_skip by done.
  eapply pacedUntil_mono; [|exact H3]. lia.
Qed.

Lemma RunTTYProgram_paced fuel s d :
  getSleepDuration (self s) = Value d ->
  exists new,
    trace (stateOf (RunTTYProgram env fuel s)) = trace s ++ new /\
    pacedUntil (Z.max 0 d) (deadline (self s)) (clock s) (commandTimes new).
Proof.
  intros Hd. unfold RunTTYProgram. run.
  destruct (Connection (self s)) as [c|]; run.
  2:{ exists []. by rewrite app_nil_r. }
  destruct (failure (reply env (tick s))); run.
  { eexists. split; [done|]. done. }
  unfold defer.
  match goal with |- context [ttySetup env fuel ?ss ?st] =>
    destruct (ttySetup_paced fuel ss st d Hd) as (new & Ht & Hsp);
    destruct (ttySetup env fuel ss st) as [e s2|p s2|s2]
  end; run; cbn [stateOf] in Ht; run in Ht; run in Hsp.
  - eexists. split; [rewrite Ht; by rewrite <- !app_assoc|].
    cbn [app]. rewrite commandTimes_skip by done.
    rewrite commandTimes_app, app_nil_r.
    eapply pacedUntil_mono; [|exact Hsp]. lia.
  - eexists. split; [rewrite Ht; by rewrite <- !app_assoc|].
    cbn [app]. rewrite commandTimes_skip by done.
    rewrite commandTimes_app, app_nil_r.
    eapply pacedUntil_mono; [|exact Hsp]. lia.
  - eexists. split; [rewrite Ht; by rewrite <- !app_assoc|].
    cbn [app]. rewrite commandTimes_skip by done.
    eapply pacedUntil_mono; [|exact Hsp]. lia.
Qed.

Lemma RunProgram_paced fuel s new :
  0 < CommandRate (self s) ->
  appended s (stateOf (RunProgram env fuel s)) new ->
  pacedUntil (60 / CommandRate (self s) * Second) (deadline (self s))
             (clock s) (commandTimes new).
Proof.
  intros Hr Happ.
  destruct (getSleepDuration_positive_rate (self s) Hr) as [Hd Hq].
  assert (Hsp : exists new',
             trace (stateOf (RunProgram env fuel s)) = trace s ++ new' /\
             pacedUntil (Z.max 0 (60 / CommandRate (self s) * Second))
                        (deadline (self s)) (clock s) (commandTimes new')).
  { unfold RunProgram. run. destruct (UseTTY (self s)).
    - by apply RunTTYProgram_paced.
    - unfold RunStandardProgram. run. destruct (Connection (self s)); run.
      + by apply standardLoop_paced.
      + exists []. by rewrite app_nil_r. }
  destruct Hsp as (new' & Ht & Hsp). unfold appended in Happ.
  rewrite Ht in Happ. apply app_inv_head in Happ. subst new'.
  rewrite Z.max_r in Hsp by (unfold Second; lia). done.
Qed.

(** X14. The pace of the commands.  With a cadence above zero, two
    consecutive commands of a run of [RunProgram], in standard and in
    interactive mode, are sent at least [60 / CommandRate] whole seconds
    apart (the integer quotient): the wait between them is never cut short,
    because a wait that the cancellation ends also ends the run. *)
Theorem RunProgram_commands_spaced (fuel : nat) (s : State)
    (new : list (Time * Event)) (i : nat) (t1 t2 : Time) :
  0 < CommandRate (self s) ->
  appended s (stateOf (RunProgram env fuel s)) new ->
  commandTimes new !! i = Some t1 ->
  commandTimes new !! S i = Some t2 ->
  t1 + 60 / CommandRate (self s) * Second <= t2.
Proof.
  intros Hr Happ H1 H2.
  pose proof (pacedUntil_spaced _ _ _ _ (RunProgram_paced fuel s new Hr Happ))
    as Hsp.
  exact (spacedFrom_lookup _ _ _ _ _ _ Hsp H1 H2).
Qed.


End Pace.

Lemma RunProgram_commands_spaced_witness :
  let s := initial agentInSession in
  let new := trace (stateOf (RunProgram envAllOk 3 s)) in
  commandTimes new !! 0%nat = Some 2 /\
  commandTimes new !! 1%nat = Some 10000000006 /\
  2 + 60 / CommandRate (self s) * Second <= 10000000006.
Proof.
  split; [by vm_compute|]. split; [by vm_compute|].
  apply (RunProgram_commands_spaced envAllOk 3 (initial agentInSession)
           (trace (stateOf (RunProgram envAllOk 3 (initial agentInSession))))
           0%nat 2 10000000006).
  - vm_compute. reflexivity.
  - vm_compute. reflexivity.
  - vm_compute. reflexivity.
  - vm_compute. reflexivity.
Defined.


(** * The order of the closing calls *)

Lemma callsOf_app tr1 tr2 : callsOf (tr1 ++ tr2) = callsOf tr1 ++ callsOf tr2.
Proof. apply omap_app. Qed.

Section ClosingOrder.

Variable env : Env.

Ltac last_calls :=
  eexists; split; [by rewrite <- ?app_assoc|];
  first [ done
        | intros _; eexists; cbn;
          repeat first [reflexivity | apply suffix_cons_r] ].

Lemma standardCycle_closing idx s c :
  Connection (self s) = Some c ->
  exists new,
    trace (stateOf (standardCycle env idx s)) = trace s ++ new /\
    match standardCycle env idx s with
    | Done Continue s1 => self s1 = self s /\ released new = false
    | _ =>
        released new = true ->
        exists sess, [SessionClose sess; ClientClose c] `suffix_of` callsOf new
    end.
Proof.
  intros Hc. unfold standardCycle. run.
  destruct (signaledAt env (clock s)); run; [last_calls|].
  destruct (ttlReached (self s) (clock s)); run; [last_calls|].
  destruct (getCommand (self s) idx); run.
  2:{ exists []. by rewrite app_nil_r. }
  rewrite Hc. run.
  destruct (failure (reply env (tick s))); run; [last_calls|].
  match goal with |- context [failure ?r] => destruct (failure r) end; run.
  { unfold Close. run. rewrite Hc. run. last_calls. }
  match goal with |- context [failure ?r] => destruct (failure r) end; run.
  { unfold Close. run. rewrite Hc. run. last_calls. }
  last_calls.
Qed.

Lemma standardLoop_closing fuel idx s c :
  Connection (self s) = Some c ->
  exists new,
    trace (stateOf (standardLoop env fuel idx s)) = trace s ++ new /\
    (released new = true ->
     exists sess, [SessionClose sess; ClientClose c] `suffix_of` callsOf new).
Proof.
  revert idx s. induction fuel as [|fuel IH]; intros idx s Hc.
  { exists []. by rewrite app_nil_r. }
  rewrite standardLoop_S.
  destruct (standardCycle_closing idx s c Hc) as (n1 & Ht1 & H1).
  destruct (standardCycle env idx s) as [[e|] s1|p s1|s1]; cbn [stateOf] in *;
    try by exists n1.
  destruct H1 as [Hs1 Hr1].
  destruct (cadenceSleep_facts env s1) as (n2 & Ht2 & Hn2 & H2).
  destruct (noCall_neutral false n2 Hn2) as (_ & Hr2 & _).
  assert (Hquiet : released (n1 ++ n2) = false)
    by (by rewrite released_app, Hr1, Hr2).
  destruct (cadenceSleep env s1) as [[e|] s2|p s2|s2]; cbn [stateOf] in *.
  - exists (n1 ++ n2). rewrite Ht2, Ht1, app_assoc. split; [done|].
    by rewrite Hquiet.
  - destruct (IH (add64 idx 1) s2) as (n3 & Ht3 & H3).
    { destruct H2 as [-> _]. by rewrite Hs1. }
    exists (n1 ++ n2 ++ n3). rewrite Ht3, Ht2, Ht1, !app_assoc.
    split; [done|]. rewrite <- app_assoc.
    rewrite !released_app, Hr1, Hr2. cbn [orb]. intros Hr3.
    destruct (H3 Hr3) as [sess Hsuf]. exists sess.
    rewrite !callsOf_app. by do 2 apply suffix_app_r.
  - exists (n1 ++ n2). rewrite Ht2, Ht1, app_assoc. split; [done|].
    by rewrite Hquiet.
  - exists (n1 ++ n2). rewrite Ht2, Ht1, app_assoc. split; [done|].
    by rewrite Hquiet.
Qed.

Lemma RunTTYProgram_closing fuel s c :
  Connection (self s) = Some c ->
  exists new,
    trace (stateOf (RunTTYProgram env fuel s)) = trace s ++ new /\
    (released new = true ->
     exists sess, [ClientClose c; SessionClose sess] `suffix_of` callsOf new).
Proof.
  intros Hc. unfold RunTTYProgram. run. rewrite Hc. run.
  destruct (failure (reply env (tick s))); run; [last_calls|].
  unfold defer, ttySetup. run.
  match goal with |- context [failure ?r] => destruct (failure r) end; run.
  { unfold Close. run. rewrite Hc. run. last_calls. }
  match goal with |- context [failure ?r] => destruct (failure r) end; run.
  { unfold Close. run. rewrite Hc. run. last_calls. }
  match goal with |- context [failure ?r] => destruct (failure r) end; run.
  { unfold Close. run. rewrite Hc. run. last_calls. }
  match goal with |- context [failure ?r] => destruct (failure r) end; run.
  { unfold Close. run. rewrite Hc. run. last_calls. }
  match goal with |- context [failure ?r] => destruct (failure r) end; run.
  { unfold Close. run. rewrite Hc. run. last_calls. }
  match goal with |- context [raceTimer env ?t ?k ?x] =>
    destruct (raceTimer env t k x) as [[|] t'] end; run.
  2:{ last_calls. }
  match goal with |- context [ttyLoop env fuel ?ss 0 ?s1] =>
    destruct (ttyLoop_facts env fuel ss 0 s1) as (n3 & Ht3 & _ & Hr3 & _);
    destruct (ttyLoop env fuel ss 0 s1) as [e s2|p s2|s2]
  end; run; cbn [stateOf] in Ht3; run in Ht3.
  all: eexists; split; [rewrite Ht3; by rewrite <- !app_assoc|].
  all: cbn [app]; unfold released in *.
  all: cbn [existsb fatalToConnection snd orb].
  all: rewrite ?existsb_app, Hr3; by cbn.
Qed.

(** X15. The order of the two closes.  When a run of [RunProgram] gives
    the connection up, closing the session and closing the connection are
    the last two library calls it makes.  Standard mode closes the session
    and then the connection.  Interactive mode closes the connection first:
    the deferred [sess.Close()] then runs on a session whose connection is
    already closed. *)
Theorem RunProgram_closing_order (fuel : nat) (s : State) (c : Client)
    (new : list (Time * Event)) :
  Connection (self s) = Some c ->
  appended s (stateOf (RunProgram env fuel s)) new ->
  released new = true ->
  exists sess,
    (if UseTTY (self s) then [ClientClose c; SessionClose sess]
     else [SessionClose sess; ClientClose c]) `suffix_of` callsOf new.
Proof.
  intros Hc Happ Hr. unfold appended in Happ. revert Happ.
  unfold RunProgram. run. destruct (UseTTY (self s)).
  - destruct (RunTTYProgram_closing fuel s c Hc) as (new' & Ht & H).
    rewrite Ht. intros ->%app_inv_head. by apply H.
  - unfold RunStandardProgram. run. rewrite Hc.
    destruct (standardLoop_closing fuel 0 s c Hc) as (new' & Ht & H).
    rewrite Ht. intros ->%app_inv_head. by apply H.
Qed.

End ClosingOrder.

Lemma RunProgram_closing_order_witness :
  (exists sess,
     [SessionClose sess; ClientClose 7%nat] `suffix_of`
       callsOf (trace (stateOf (RunProgram (envFailingFrom 2) 5
                                  (initial agentInSession))))) /\
  (exists sess,
     [ClientClose 7%nat; SessionClose sess] `suffix_of`
       callsOf (trace (stateOf (RunProgram (envFailingFrom 2) 5
                                  (initial (interactive agentInSession)))))).
Proof.
  split.
  - apply (RunProgram_closing_order (envFailingFrom 2) 5
             (initial agentInSession) 7%nat
             (trace (stateOf (RunProgram (envFailingFrom 2) 5
                                (initial agentInSession))))).
    + reflexivity.
    + vm_compute. reflexivity.
    + vm_compute. reflexivity.
  - apply (RunProgram_closing_order (envFailingFrom 2) 5
             (initial (interactive agentInSession)) 7%nat
             (trace (stateOf (RunProgram (envFailingFrom 2) 5
                                (initial (interactive agentInSession)))))).
    + reflexivity.
    + vm_compute. reflexivity.
    + vm_compute. reflexivity.
Defined.
